(** * SMS-backend: order / payment reconciliation core

    A shallow embedding of the admin approval flow for manual orders
    (src/routes/adminOrders.js), of the admin deposit routes
    (src/unnamed/part_004), of the scheduled order sync
    (src/jobs/orderSync.js, [startOrderSync]) and of the user's on-demand
    status refresh (the /api/orders router that follows it in the same file).

    Conventions of the embedding.
    - A MongoDB collection is a finite map from the document's [_id] (the hex
      string of its ObjectId) to the document's fields; a loaded document is
      the pair of its id and its fields.  [doc.save()] writes the fields back
      under the id.
    - JavaScript Numbers holding money or counts are integers of [Z]: the
      rounding of IEEE doubles is not modelled.
    - [async] handlers run to completion one after the other.  A rejected
      promise or a thrown error is the [Throw] outcome of the monad [M]; the
      writes made before the throw stay in the store, as in the code, which
      uses no database transaction.
    - Database operations themselves do not fail.  The calls that can fail
      are the provider request, the mail transport and a property read on
      [null].
    - Console lines are kept without their leading pictograms. *)

From Stdlib Require Import ZArith Lia Ascii DecimalString.
From stdpp Require Import gmap strings list fin_maps.

Local Open Scope string_scope.
Local Open Scope list_scope.
Local Open Scope Z_scope.

(** ** Documents (src/models/User.js, src/models/Transaction.js, and the Order
    schema of src/unnamed/part_011)

    Fields that no modelled operation reads or writes are left out. *)

Abbreviation ObjectId := string (only parsing).

Record User := mkUser {
  email : string;
  name : option string;
  balance : Z
}.

Inductive Provider := secsers | manual.

(** [charge] is a String field, [status] a free-form String. *)
Record Order := mkOrder {
  userId : ObjectId;
  service : ObjectId;
  providerOrder : option Z;
  status : string;
  charge : option string;
  currency : string;
  start_count : option Z;
  remains : option Z;
  provider : Provider;
  adminNotes : option string;
  orderNumber : option Z
}.

Inductive TxType := ty_deposit | ty_order | ty_adjustment.
Inductive TxStatus := pending | completed | failed.

Record Transaction := mkTransaction {
  tx_userId : ObjectId;
  tx_type : TxType;
  amount : Z;
  tx_status : TxStatus;
  reference : option string;
  rejectReason : option string;
  tx_orderNumber : option Z
}.

Record Notification := mkNotification {
  n_userId : ObjectId;
  title : string;
  message : string
}.

Record Mail := mkMail {
  to : string;
  subject : string;
  text : string;
  html : string
}.

#[global] Instance Provider_eq_dec : EqDecision Provider.
Proof. solve_decision. Defined.
#[global] Instance TxType_eq_dec : EqDecision TxType.
Proof. solve_decision. Defined.
#[global] Instance TxStatus_eq_dec : EqDecision TxStatus.
Proof. solve_decision. Defined.

(** ** The store and what the process shows to the outside *)

Record World := mkWorld {
  users : gmap string User;
  orders : gmap string Order;
  transactions : gmap string Transaction;
  notifications : list Notification;
  outbox : list Mail;
  console : list string
}.

(** Field assignments on documents. *)

Definition set_balance (b : Z) (u : User) : User :=
  mkUser (email u) (name u) b.

Definition set_status (s : string) (o : Order) : Order :=
  mkOrder (userId o) (service o) (providerOrder o) s (charge o) (currency o)
          (start_count o) (remains o) (provider o) (adminNotes o) (orderNumber o).

Definition set_charge (c : string) (o : Order) : Order :=
  mkOrder (userId o) (service o) (providerOrder o) (status o) (Some c) (currency o)
          (start_count o) (remains o) (provider o) (adminNotes o) (orderNumber o).

Definition set_currency (c : string) (o : Order) : Order :=
  mkOrder (userId o) (service o) (providerOrder o) (status o) (charge o) c
          (start_count o) (remains o) (provider o) (adminNotes o) (orderNumber o).

Definition set_start_count (n : Z) (o : Order) : Order :=
  mkOrder (userId o) (service o) (providerOrder o) (status o) (charge o) (currency o)
          (Some n) (remains o) (provider o) (adminNotes o) (orderNumber o).

Definition set_remains (n : Z) (o : Order) : Order :=
  mkOrder (userId o) (service o) (providerOrder o) (status o) (charge o) (currency o)
          (start_count o) (Some n) (provider o) (adminNotes o) (orderNumber o).

Definition set_adminNotes (a : string) (o : Order) : Order :=
  mkOrder (userId o) (service o) (providerOrder o) (status o) (charge o) (currency o)
          (start_count o) (remains o) (provider o) (Some a) (orderNumber o).

Definition set_tx_status (s : TxStatus) (t : Transaction) : Transaction :=
  mkTransaction (tx_userId t) (tx_type t) (amount t) s (reference t)
                (rejectReason t) (tx_orderNumber t).

Definition set_rejectReason (r : string) (t : Transaction) : Transaction :=
  mkTransaction (tx_userId t) (tx_type t) (amount t) (tx_status t) (reference t)
                (Some r) (tx_orderNumber t).

Definition with_users (f : gmap string User → gmap string User) (w : World) : World :=
  mkWorld (f (users w)) (orders w) (transactions w) (notifications w) (outbox w) (console w).

Definition with_orders (f : gmap string Order → gmap string Order) (w : World) : World :=
  mkWorld (users w) (f (orders w)) (transactions w) (notifications w) (outbox w) (console w).

Definition with_transactions (f : gmap string Transaction → gmap string Transaction)
    (w : World) : World :=
  mkWorld (users w) (orders w) (f (transactions w)) (notifications w) (outbox w) (console w).

Definition with_notifications (f : list Notification → list Notification) (w : World) : World :=
  mkWorld (users w) (orders w) (transactions w) (f (notifications w)) (outbox w) (console w).

Definition with_outbox (f : list Mail → list Mail) (w : World) : World :=
  mkWorld (users w) (orders w) (transactions w) (notifications w) (f (outbox w)) (console w).

Definition with_console (f : list string → list string) (w : World) : World :=
  mkWorld (users w) (orders w) (transactions w) (notifications w) (outbox w) (f (console w)).

(** ** Effects: the store is threaded, an error may be thrown *)

(** A JavaScript [Error], kept as its [message]. *)
Abbreviation exn := string (only parsing).

Inductive outcome (A : Type) : Type :=
  | Return (a : A)
  | Throw (e : exn).
Arguments Return {A} a.
Arguments Throw {A} e.

Definition M (A : Type) : Type := World → outcome A * World.

#[global] Instance M_ret : MRet M := λ A a w, (Return a, w).
#[global] Instance M_bind : MBind M := λ A B f c w,
  match c w with
  | (Return a, w') => f a w'
  | (Throw e, w') => (Throw e, w')
  end.

Definition throw {A} (e : exn) : M A := λ w, (Throw e, w).
Definition get_world : M World := λ w, (Return w, w).
Definition modify (f : World → World) : M unit := λ w, (Return tt, f w).

(** [try { body } catch (e) { handler(e) }] *)
Definition try_catch {A} (body : M A) (handler : exn → M A) : M A := λ w,
  match body w with
  | (Return a, w') => (Return a, w')
  | (Throw e, w') => handler e w'
  end.

(** [for (const x of xs) { body(x) }] *)
Fixpoint for_of {A} (xs : list A) (body : A → M unit) : M unit :=
  match xs with
  | [] => mret tt
  | x :: rest => body x ;; for_of rest body
  end.

(** ** HTTP responses *)

Inductive Body :=
  | error_body (msg : string)      (* [{ error: msg }] *)
  | message_body (msg : string)    (* [{ message: msg, ... }] *)
  | order_body (o : Order).        (* the order document itself *)

(** [res.status(code).json(body)], or [next(e)], which hands the error to the
    application's error middleware. *)
Inductive Response :=
  | Res (code : nat) (body : Body)
  | Next (e : exn).

Definition is_success (r : Response) : bool :=
  match r with
  | Res 200 _ => true
  | _ => false
  end.

(** An [async (req, res, next) => { try { ... } catch (e) { ...; next(e) } }]
    handler always answers. *)
Definition handler (body : M Response) (on_error : exn → M Response) (w : World)
    : Response * World :=
  match body w with
  | (Return r, w') => (r, w')
  | (Throw e, w') =>
      match on_error e w' with
      | (Return r, w'') => (r, w'')
      | (Throw e', w'') => (Next e', w'')
      end
  end.

(** ** Rendering and truthiness *)

(** [String(n)] for an integer Number. *)
Definition String_of_Z (n : Z) : string := NilZero.string_of_int (Z.to_int n).

(** [`${x}`] for a Number field that may be absent. *)
Definition template_number (x : option Z) : string :=
  match x with
  | Some n => String_of_Z n
  | None => "undefined"
  end.

(** [`${x}`] for a String field that may be absent. *)
Definition template_string (x : option string) : string :=
  match x with
  | Some s => s
  | None => "undefined"
  end.

(** [x || dflt] for a string that may be absent: the empty string is falsy. *)
Definition or_else (x : option string) (dflt : string) : string :=
  match x with
  | Some s => if decide (s = "") then dflt else s
  | None => dflt
  end.

(** ** Database and console operations *)

Definition Order_findById (id : ObjectId) : M (option Order) :=
  w ← get_world; mret (orders w !! id).

Definition User_findById (id : ObjectId) : M (option User) :=
  w ← get_world; mret (users w !! id).

Definition Transaction_findById (id : ObjectId) : M (option Transaction) :=
  w ← get_world; mret (transactions w !! id).

(** [Transaction.findOne({ reference })]: the first match, if any. *)
Definition find_reference (ref : string) (txs : gmap string Transaction)
    : option (ObjectId * Transaction) :=
  snd <$> list_find (λ p, reference p.2 = Some ref) (map_to_list txs).

Definition Transaction_findOne_reference (ref : string)
    : M (option (ObjectId * Transaction)) :=
  w ← get_world; mret (find_reference ref (transactions w)).

(** [Order.find({ status: { $in: sts } })] *)
Definition Order_find_status_in (sts : list string) : M (list (ObjectId * Order)) :=
  w ← get_world;
  mret (filter (λ p, status p.2 ∈ sts) (map_to_list (orders w))).

(** [Order.findOne({ _id: id, userId: uid })] *)
Definition Order_findOne_owned (id uid : ObjectId) : M (option Order) :=
  w ← get_world;
  mret (match orders w !! id with
        | Some o => if decide (userId o = uid) then Some o else None
        | None => None
        end).

Definition Order_save (id : ObjectId) (o : Order) : M unit :=
  modify (with_orders (insert id o)).

Definition User_save (id : ObjectId) (u : User) : M unit :=
  modify (with_users (insert id u)).

Definition Transaction_save (id : ObjectId) (t : Transaction) : M unit :=
  modify (with_transactions (insert id t)).

Definition Notification_create (n : Notification) : M unit :=
  modify (with_notifications (λ l, l ++ [n])).

Definition console_error (line : string) : M unit :=
  modify (with_console (λ l, l ++ [line])).

Definition console_log (line : string) : M unit :=
  modify (with_console (λ l, l ++ [line])).

(** [doc.userId] after [.populate('userId')] is the user document, or [null]
    when the user is gone; reading a property of [null] throws. *)
Definition populated_id (uid : ObjectId) (populated : option User) : M ObjectId :=
  match populated with
  | Some _ => mret uid
  | None => throw "Cannot read properties of null (reading '_id')"
  end.

Definition populated_email (populated : option User) : M string :=
  match populated with
  | Some u => mret (email u)
  | None => throw "Cannot read properties of null (reading 'email')"
  end.

Definition manual_reference (id : ObjectId) : string := "manual-order:" +:+ id.

(** ** The provider's reply to [secsers.status(order)] (the secsers client at
    the end of src/utils/telegramNotifier.js)

    The reply is untyped JSON, read only through [if (st.f)] and [Number(st.f)].
    A field is [None] when it is absent or falsy for the guard ([null] as a
    whole reply is the reply with no field).  [st_start_count] and
    [st_remains] carry [Number(st.f)] of a truthy field; replies whose truthy
    count is not a numeral are not represented. *)
Record Snapshot := mkSnapshot {
  st_status : option string;
  st_charge : option string;
  st_start_count : option Z;
  st_remains : option Z;
  st_currency : option string
}.

Section Backend.

(** JavaScript's [ToNumber] on strings, into the integers of the model;
    [None] is [NaN]. *)
Variable ToNumber : string → option Z.

(** [String(Number(s))], the value Mongoose stores when a Number is
    assigned to the String field [charge]. *)
Variable String_of_Number : string → string.

(** The provider: the reply for a provider order id, or the error of the
    failed request. *)
Variable secsers_status_reply : Z → exn + Snapshot.

(** The mail transport: [Some e] when sending this message fails. *)
Variable transporter_sendMail : Mail → option exn.

Definition secsers_status (po : Z) : M Snapshot :=
  match secsers_status_reply po with
  | inl e => throw e
  | inr st => mret st
  end.

Definition sendMail (rcpt subj txt htm : string) : M unit :=
  let m := mkMail rcpt subj txt htm in
  match transporter_sendMail m with
  | Some e => throw e
  | None => modify (with_outbox (λ l, l ++ [m]))
  end.

(** [user.balance >= order.charge]: the String is converted by [ToNumber];
    a comparison with [undefined] or [NaN] is false.  (A stored [null] would
    compare like 0 and then deduct [Number(null || 0) = 0]: the same store as
    with no deduction, so [None] stands for it too.) *)
Definition geq_charge (b : Z) (c : option string) : bool :=
  match c with
  | Some s =>
      match ToNumber s with
      | Some n => bool_decide (n ≤ b)
      | None => false
      end
  | None => false
  end.

(** [Number(order.charge || 0)]; [None] is [NaN]. *)
Definition Number_charge_or_0 (c : option string) : option Z :=
  match c with
  | Some s => if decide (s = "") then Some 0 else ToNumber s
  | None => Some 0
  end.

(** *** src/routes/adminOrders.js *)

(** [if (user && user.balance >= order.charge) { user.balance -= ...; save }] *)
Definition deduct_charge (uid : ObjectId) (user : option User) (o : Order) : M unit :=
  match user with
  | Some u =>
      if geq_charge (balance u) (charge o) then
        match Number_charge_or_0 (charge o) with
        | Some d => User_save uid (set_balance (balance u - d) u)
        | None => mret tt   (* [NaN]: excluded by the guard, see [geq_charge_Number] *)
        end
      else mret tt
  | None => mret tt
  end.

(** POST /api/admin/orders/:id/confirm, with [notes = req.body.notes] *)
Definition confirm_order_body (id : ObjectId) (notes : option string) : M Response :=
  found ← Order_findById id;
  match found with
  | None => mret (Res 404 (error_body "Order not found"))
  | Some o =>
      populated ← User_findById (userId o);
      if decide (provider o ≠ manual) then
        mret (Res 400 (error_body "Only manual orders can be confirmed"))
      else if decide (status o ≠ "Pending Admin Approval") then
        mret (Res 400 (error_body "Order is not awaiting admin confirmation"))
      else
        let o := set_adminNotes (or_else notes "Confirmed by admin")
                   (set_status "Completed" o) in
        Order_save id o;;
        txn ← Transaction_findOne_reference (manual_reference id);
        match txn with
        | Some (tid, t) =>
            uid ← populated_id (userId o) populated;
            user ← User_findById uid;
            deduct_charge uid user o;;
            Transaction_save tid (set_tx_status completed t)
        | None => mret tt
        end;;
        uid ← populated_id (userId o) populated;
        let msg := "Your manual order #" +:+ template_number (orderNumber o)
                   +:+ " has been confirmed." in
        Notification_create (mkNotification uid "Order Confirmed" msg);;
        try_catch
          (rcpt ← populated_email populated;
           sendMail rcpt "Order Confirmed" msg
             ("<p>Your manual order <b>#" +:+ template_number (orderNumber o)
              +:+ "</b> has been confirmed.</p>"))
          (λ mailErr, console_error ("Failed to send confirmation email: " +:+ mailErr));;
        mret (Res 200 (message_body "Manual order confirmed"))
  end.

Definition confirm_order (id : ObjectId) (notes : option string)
    : World → Response * World :=
  handler (confirm_order_body id notes)
    (λ e, console_error ("[ADMIN ORDERS] Error confirming order: " +:+ e);;
          mret (Next e)).

(** POST /api/admin/orders/:id/reject, with [reason = req.body.reason] *)
Definition reject_order_body (id : ObjectId) (reason : option string) : M Response :=
  found ← Order_findById id;
  match found with
  | None => mret (Res 404 (error_body "Order not found"))
  | Some o =>
      populated ← User_findById (userId o);
      if decide (provider o ≠ manual) then
        mret (Res 400 (error_body "Only manual orders can be rejected"))
      else if decide (status o ≠ "Pending Admin Approval") then
        mret (Res 400 (error_body "Order is not awaiting admin confirmation"))
      else
        (* [Transaction.findOneAndUpdate({ reference }, { status: 'failed' })] *)
        txn ← Transaction_findOne_reference (manual_reference id);
        match txn with
        | Some (tid, t) => Transaction_save tid (set_tx_status failed t)
        | None => mret tt
        end;;
        let o := set_adminNotes (or_else reason "Rejected by admin")
                   (set_status "Rejected" o) in
        Order_save id o;;
        uid ← populated_id (userId o) populated;
        Notification_create (mkNotification uid "Order Rejected"
          ("Your manual order #" +:+ template_number (orderNumber o)
           +:+ " has been rejected. Reason: " +:+ template_string (adminNotes o)));;
        try_catch
          (rcpt ← populated_email populated;
           sendMail rcpt "Order Rejected"
             ("Your manual order #" +:+ template_number (orderNumber o)
              +:+ " was rejected. Reason: " +:+ template_string (adminNotes o))
             ("<p>Your manual order <b>#" +:+ template_number (orderNumber o)
              +:+ "</b> was rejected.<br/>Reason: <b>"
              +:+ template_string (adminNotes o) +:+ "</b></p>"))
          (λ mailErr, console_error ("Failed to send rejection email: " +:+ mailErr));;
        mret (Res 200 (message_body "Manual order rejected and refunded"))
  end.

Definition reject_order (id : ObjectId) (reason : option string)
    : World → Response * World :=
  handler (reject_order_body id reason)
    (λ e, console_error ("[ADMIN ORDERS] Error rejecting order: " +:+ e);;
          mret (Next e)).

(** *** src/unnamed/part_004: the admin routes for deposits *)

(** POST /api/admin/deposits/:id/confirm *)
Definition confirm_deposit_body (id : ObjectId) : M Response :=
  found ← Transaction_findById id;
  match found with
  | None => mret (Res 404 (error_body "Transaction not found"))
  | Some tx =>
      populated ← User_findById (tx_userId tx);
      if decide (tx_type tx ≠ ty_deposit) then
        mret (Res 400 (error_body "Not a deposit transaction"))
      else if decide (tx_status tx = completed) then
        mret (Res 400 (error_body "Already confirmed"))
      else if decide (tx_status tx = failed) then
        mret (Res 400 (error_body "Already rejected"))
      else
        let tx := set_tx_status completed tx in
        Transaction_save id tx;;
        match populated with
        | None => throw "Cannot read properties of null (reading 'balance')"
        | Some user =>
            let user := set_balance (balance user + amount tx) user in
            User_save (tx_userId tx) user;;
            Notification_create (mkNotification (tx_userId tx) "Deposit Confirmed"
              ("Your deposit of $" +:+ String_of_Z (amount tx)
               +:+ " has been confirmed. New balance: $"
               +:+ String_of_Z (balance user) +:+ "."));;
            try_catch
              (sendMail (email user) "Deposit Confirmed"
                 ("Your deposit of $" +:+ String_of_Z (amount tx) +:+ " has been confirmed.")
                 ("<p>Your deposit of <b>$" +:+ String_of_Z (amount tx)
                  +:+ "</b> has been confirmed.<br/>New Balance: <b>$"
                  +:+ String_of_Z (balance user) +:+ "</b></p>"))
              (λ mailErr, console_error ("Failed to send confirmation email: " +:+ mailErr));;
            mret (Res 200 (message_body "Deposit confirmed"))
        end
  end.

Definition confirm_deposit (id : ObjectId) : World → Response * World :=
  handler (confirm_deposit_body id) (λ e, mret (Next e)).

(** POST /api/admin/deposits/:id/reject, with [reason = req.body.reason] *)
Definition reject_deposit_body (id : ObjectId) (reason : option string) : M Response :=
  found ← Transaction_findById id;
  match found with
  | None => mret (Res 404 (error_body "Transaction not found"))
  | Some tx =>
      populated ← User_findById (tx_userId tx);
      if decide (tx_type tx ≠ ty_deposit) then
        mret (Res 400 (error_body "Not a deposit transaction"))
      else if decide (tx_status tx = completed) then
        mret (Res 400 (error_body "Already confirmed"))
      else if decide (tx_status tx = failed) then
        mret (Res 400 (error_body "Already rejected"))
      else
        let tx := set_rejectReason (or_else reason "No reason provided")
                    (set_tx_status failed tx) in
        Transaction_save id tx;;
        uid ← populated_id (tx_userId tx) populated;
        Notification_create (mkNotification uid "Deposit Rejected"
          ("Your deposit of $" +:+ String_of_Z (amount tx)
           +:+ " was rejected. Reason: " +:+ template_string (rejectReason tx)));;
        try_catch
          (rcpt ← populated_email populated;
           sendMail rcpt "Deposit Rejected"
             ("Your deposit of $" +:+ String_of_Z (amount tx)
              +:+ " was rejected. Reason: " +:+ template_string (rejectReason tx))
             ("<p>Your deposit of <b>$" +:+ String_of_Z (amount tx)
              +:+ "</b> was rejected.<br/>Reason: <b>"
              +:+ template_string (rejectReason tx) +:+ "</b></p>"))
          (λ mailErr, console_error ("Failed to send rejection email: " +:+ mailErr));;
        mret (Res 200 (message_body "Deposit rejected"))
  end.

Definition reject_deposit (id : ObjectId) (reason : option string)
    : World → Response * World :=
  handler (reject_deposit_body id reason) (λ e, mret (Next e)).

(** *** src/jobs/orderSync.js: the scheduled sweep *)

(** [if (x) order.f = x] *)
Definition assign_if {A} (x : option A) (set : A → Order → Order) (o : Order) : Order :=
  match x with
  | Some a => set a o
  | None => o
  end.

(** [if (x) order.f = g(x)] for a string [x]: the empty string is falsy. *)
Definition assign_if_truthy (x : option string) (set : string → Order → Order)
    (o : Order) : Order :=
  match x with
  | Some s => if decide (s = "") then o else set s o
  | None => o
  end.

(** The assignments of the sweep once the status is known to have changed. *)
Definition apply_snapshot_sync (new_status : string) (st : Snapshot) (o : Order) : Order :=
  assign_if_truthy (st_currency st) set_currency
    (assign_if (st_remains st) set_remains
      (assign_if (st_start_count st) set_start_count
        (assign_if_truthy (st_charge st) set_charge
          (set_status new_status o)))).

(** [st && st.status && st.status !== order.status] *)
Definition status_changed (st : Snapshot) (stored : string) : option string :=
  match st_status st with
  | Some s => if decide (s = "") then None
              else if decide (s ≠ stored) then Some s else None
  | None => None
  end.

(** [if (!order.providerOrder)]: absent and [0] are falsy. *)
Definition providerOrder_truthy (o : Order) : option Z :=
  match providerOrder o with
  | Some n => if decide (n = 0) then None else Some n
  | None => None
  end.

(** The body of the loop, for one order loaded by the query. *)
Definition sync_order (doc : ObjectId * Order) : M unit :=
  let '(id, order) := doc in
  match providerOrder_truthy order with
  | None => mret tt   (* [continue] *)
  | Some po =>
      try_catch
        (st ← secsers_status po;
         match status_changed st (status order) with
         | Some new_status =>
             let oldStatus := status order in
             let order := apply_snapshot_sync new_status st order in
             Order_save id order;;
             console_log ("Updated order " +:+ id +:+ ": " +:+ oldStatus
                          +:+ " -> " +:+ status order);;
             user ← User_findById (userId order);
             match user with
             | Some u =>
                 let message := "Your order for service " +:+ service order
                                +:+ " has changed from " +:+ oldStatus
                                +:+ " to " +:+ status order +:+ "." in
                 Notification_create (mkNotification (userId order)
                   ("Order #" +:+ id +:+ " status updated") message);;
                 sendMail (email u) "Order Status Updated" message
                   ("<p>" +:+ message +:+ "</p>")
             | None => mret tt
             end
         | None => mret tt
         end)
        (λ err, console_error ("Failed to update order " +:+ id +:+ ": " +:+ err))
  end.

(** The document the loop body stores for a loaded order, if it stores one. *)
Definition sync_update (o : Order) : option Order :=
  match providerOrder_truthy o with
  | Some po =>
      match secsers_status_reply po with
      | inr st =>
          match status_changed st (status o) with
          | Some new_status => Some (apply_snapshot_sync new_status st o)
          | None => None
          end
      | inl _ => None
      end
  | None => None
  end.

(** One run of the cron callback. *)
Definition orderSync : M unit :=
  console_log "Running order sync job...";;
  try_catch
    (orders ← Order_find_status_in ["Pending"; "In progress"];
     for_of orders sync_order)
    (λ err, console_error ("Order sync job error: " +:+ err)).

(** *** GET /api/orders/:id/status, for the user [uid] (with [req.user.id = uid]) *)

Definition apply_snapshot_refresh (st : Snapshot) (o : Order) : Order :=
  assign_if_truthy (st_currency st) set_currency
    (assign_if (st_remains st) set_remains
      (assign_if (st_start_count st) set_start_count
        (assign_if_truthy (st_charge st) (λ c, set_charge (String_of_Number c))
          (set_status (or_else (st_status st) (status o)) o)))).

Definition refresh_status_body (uid id : ObjectId) : M Response :=
  found ← Order_findOne_owned id uid;
  match found with
  | None => mret (Res 404 (error_body "Order not found"))
  | Some local =>
      if decide (provider local ≠ secsers) then
        mret (Res 400 (error_body "Only secsers orders can be refreshed automatically"))
      else
        match providerOrder_truthy local with
        | None => mret (Res 400 (error_body "Order not placed yet"))
        | Some po =>
            st ← secsers_status po;
            let oldStatus := status local in
            let local := apply_snapshot_refresh st local in
            Order_save id local;;
            match status_changed st oldStatus with
            | Some _ =>
                let message := "Your order #" +:+ template_number (orderNumber local)
                               +:+ " has changed from " +:+ oldStatus
                               +:+ " to " +:+ status local +:+ "." in
                Notification_create (mkNotification uid "Order Status Updated" message);;
                user ← User_findById uid;
                match user with
                | Some u =>
                    if decide (email u = "") then mret tt
                    else sendMail (email u) "Order Status Updated" message
                           ("<p>" +:+ message +:+ "</p>")
                | None => mret tt
                end
            | None => mret tt
            end;;
            mret (Res 200 (order_body local))
        end
  end.

Definition refresh_status (uid id : ObjectId) : World → Response * World :=
  handler (refresh_status_body uid id) (λ e, mret (Next e)).

(** *** Sequences of admin calls on one document *)

Inductive AdminCall :=
  | Confirm (notes : option string)
  | Reject (reason : option string).

Definition order_call (id : ObjectId) (c : AdminCall) : World → Response * World :=
  match c with
  | Confirm notes => confirm_order id notes
  | Reject reason => reject_order id reason
  end.

Definition deposit_call (id : ObjectId) (c : AdminCall) : World → Response * World :=
  match c with
  | Confirm _ => confirm_deposit id
  | Reject reason => reject_deposit id reason
  end.

(** The calls of [cs] one after the other: the responses, and the last store. *)
Fixpoint run_calls (call : AdminCall → World → Response * World)
    (cs : list AdminCall) (w : World) : list Response * World :=
  match cs with
  | [] => ([], w)
  | c :: rest =>
      let '(r, w1) := call c w in
      let '(rs, w2) := run_calls call rest w1 in
      (r :: rs, w2)
  end.

End Backend.

(** The status the approval flow gives an order on a call. *)
Definition terminal_status (c : AdminCall) : string :=
  match c with
  | Confirm _ => "Completed"
  | Reject _ => "Rejected"
  end.

(** A guard's answer: [res.status(400).json({ error })]. *)
Definition is_guard_error (r : Response) : Prop :=
  ∃ msg, r = Res 400 (error_body msg).

(** ** Concrete oracles and stores, for the scenarios of the specification *)

(** [ToNumber] on the strings made of decimal digits ([NaN] elsewhere). *)
Definition digit_value (c : ascii) : option Z :=
  let n := Z.of_N (Ascii.N_of_ascii c) in
  if bool_decide (48 ≤ n ≤ 57) then Some (n - 48) else None.

Fixpoint digits_value (s : string) (acc : Z) : option Z :=
  match s with
  | EmptyString => Some acc
  | String c rest =>
      match digit_value c with
      | Some d => digits_value rest (10 * acc + d)
      | None => None
      end
  end.

Definition decimal_ToNumber (s : string) : option Z := digits_value s 0.

(** [String(Number(s))] on the canonical numerals, which it gives back. *)
Definition canonical_numeral (s : string) : string := s.

(** A transport that delivers every message. *)
Definition mail_delivers (m : Mail) : option exn := None.

Definition alice (b : Z) : User := mkUser "alice@example.com" (Some "Alice") b.

(** A manual order of charge 20.00 awaiting approval, and its transaction. *)
Definition manual_20 : Order :=
  mkOrder "u1" "svc1" None "Pending Admin Approval" (Some "20") "USD" None None
          manual None (Some 7).

Definition charge_20 : Transaction :=
  mkTransaction "u1" ty_order 20 pending (Some "manual-order:o1") None (Some 7).

Definition manual_world (b : Z) : World :=
  mkWorld {[ "u1" := alice b ]} {[ "o1" := manual_20 ]} {[ "t1" := charge_20 ]} [] [] [].

(** The same order without any transaction. *)
Definition manual_world_no_tx (b : Z) : World :=
  mkWorld {[ "u1" := alice b ]} {[ "o1" := manual_20 ]} ∅ [] [] [].

(** A pending deposit of 15. *)
Definition deposit_15 : Transaction :=
  mkTransaction "u1" ty_deposit 15 pending (Some "whish-774") None (Some 3).

Definition deposit_world (b : Z) : World :=
  mkWorld {[ "u1" := alice b ]} ∅ {[ "d1" := deposit_15 ]} [] [] [].

(** Provider orders in progress. *)
Definition provider_order (po : Z) (st : string) (left : Z) : Order :=
  mkOrder "u1" "svc2" (Some po) st (Some "1.23") "USD" (Some 10) (Some left)
          secsers None (Some 8).


Definition refresh_world : World :=
  mkWorld {[ "u1" := alice 0 ]} {[ "o2" := provider_order 999 "In progress" 100 ]} ∅ [] [] [].


(** Three open orders; the request for the second one (provider id 2) fails. *)
Definition reply_second_fails (po : Z) : exn + Snapshot :=
  if decide (po = 2) then inl "Request failed with status code 502"
  else inr (mkSnapshot (Some "Completed") (Some "1.50") None (Some 0) None).

Definition sweep_world : World :=
  mkWorld {[ "u1" := alice 0 ]}
          (<[ "a1" := provider_order 1 "Pending" 100 ]>
           (<[ "a2" := provider_order 2 "Pending" 100 ]>
            {[ "a3" := provider_order 3 "In progress" 100 ]}))
          ∅ [] [] [].

From Stdlib Require DecimalZ DecimalFacts.

(** * The other operations of the same routers

    The admin's refresh of an order (src/routes/adminOrders.js), the creation
    of a manual order (the /api/orders router of src/jobs/orderSync.js), the
    creation of a deposit (the payments router at the end of
    src/routes/fixProviderIds.js) with the numbering hook of
    src/models/Transaction.js, the admin routes that adjust a balance and
    delete a user (src/unnamed/part_008), and the search for a free slug of
    src/models/Service.js. *)

(** ** Creating a transaction (src/models/Transaction.js) *)

Definition set_tx_orderNumber (n : Z) (t : Transaction) : Transaction :=
  mkTransaction (tx_userId t) (tx_type t) (amount t) (tx_status t) (reference t)
                (rejectReason t) (Some n).

(** The order of [.sort({ orderNumber: -1 })]: a document without the field
    sorts below every number. *)
Definition number_below (a b : option Z) : bool :=
  match a, b with
  | None, _ => true
  | Some _, None => false
  | Some x, Some y => bool_decide (x ≤ y)
  end.

(** [Transaction.findOne({ type: 'deposit' }).sort({ orderNumber: -1 })]: a
    deposit whose [orderNumber] no other deposit exceeds, if there is a
    deposit. *)
Definition last_deposit (txs : gmap string Transaction) : option Transaction :=
  foldr (λ p best,
           if decide (tx_type p.2 = ty_deposit) then
             match best with
             | Some b =>
                 if number_below (tx_orderNumber b) (tx_orderNumber p.2)
                 then Some p.2 else Some b
             | None => Some p.2
             end
           else best)
        None (map_to_list txs).

(** The [pre('save')] hook, which runs on the new document of
    [Transaction.create]: a deposit without a truthy [orderNumber] gets
    [last ? last.orderNumber + 1 : 1].  When the last deposit has no number
    the sum is [NaN], no Number to store: the field is left as it is. *)
Definition pre_save (txs : gmap string Transaction) (t : Transaction) : Transaction :=
  if decide (tx_type t = ty_deposit) then
    if decide (tx_orderNumber t = None ∨ tx_orderNumber t = Some 0) then
      match last_deposit txs with
      | Some last =>
          match tx_orderNumber last with
          | Some n => set_tx_orderNumber (n + 1) t
          | None => t
          end
      | None => set_tx_orderNumber 1 t
      end
    else t
  else t.

(** [Transaction.create(t)], the new document getting the id [id]. *)
Definition Transaction_create (id : ObjectId) (t : Transaction) : M unit :=
  w ← get_world;
  modify (with_transactions (insert id (pre_save (transactions w) t))).

(** ** The catalogue and the counter of order numbers

    Read and written by the creation of a manual order only, they are kept
    beside the store of the other routes. *)

(** A service (src/models/Service.js): its [price] and its [slug]. *)
Record Service := mkService {
  sv_price : Z;
  sv_slug : option string
}.

Record Catalog := mkCatalog {
  services : gmap string Service;
  counters : gmap string Z
}.

(** [/^[0-9a-fA-F]{24}$/.test(s)] *)
Definition is_hex_digit (c : ascii) : bool :=
  let n := Z.of_N (Ascii.N_of_ascii c) in
  bool_decide (48 ≤ n ≤ 57) || bool_decide (65 ≤ n ≤ 70) || bool_decide (97 ≤ n ≤ 102).

Fixpoint all_chars (p : ascii → bool) (s : string) : bool :=
  match s with
  | EmptyString => true
  | String c rest => p c && all_chars p rest
  end.

Definition is_ObjectId_string (s : string) : bool :=
  bool_decide (String.length s = 24%nat) && all_chars is_hex_digit s.

(** [Service.findOne({ slug })] *)
Definition find_slug (slug : string) (svcs : gmap string Service)
    : option (ObjectId * Service) :=
  snd <$> list_find (λ p, sv_slug p.2 = Some slug) (map_to_list svcs).

(** The service of the request: by id when the string has the shape of an
    ObjectId, by slug otherwise. *)
Definition find_service (service : string) (svcs : gmap string Service)
    : option (ObjectId * Service) :=
  if is_ObjectId_string service then
    match svcs !! service with
    | Some svc => Some (service, svc)
    | None => None
    end
  else find_slug service svcs.

(** [Counter.findOneAndUpdate({ name }, { $inc: { value: 1 } },
    { new: true, upsert: true })]: the value after the increment, 1 for a
    counter that did not exist. *)
Definition counter_next (name : string) (cs : gmap string Z) : Z :=
  match cs !! name with
  | Some v => v + 1
  | None => 1
  end.

(** A value of a request body that was not validated, as far as the code
    looks at it: whether it is truthy ([!v] is false) and the Number it
    converts to, which [Number(v)], [isNaN(v)] and [Math.abs(v)] go by
    ([None] for [NaN]).  The number 5 is [mkJsValue true (Some 5)], the
    string ["0"] is [mkJsValue true (Some 0)], the number 0 and a missing
    field are not truthy. *)
Record JsValue := mkJsValue {
  js_truthy : bool;
  js_number : option Z
}.

(** What [sendTelegramAlert] meets (src/utils/telegramNotifier.js); it
    catches its own errors and only writes to the console. *)
Inductive TelegramOutcome :=
  | telegram_not_configured
  | telegram_sent
  | telegram_failed (e : exn).

Section Operations.

Variable secsers_status_reply : Z → exn + Snapshot.

(** The virtual [userPrice] of a service, a rounding of its price. *)
Variable userPrice : Service → Z.

Variable telegram : TelegramOutcome.

(** The error of the database when an order is inserted with an
    [orderNumber] that an order has already: the field has a unique index
    (src/unnamed/part_011). *)
Variable duplicate_key : Z → exn.

(** *** POST /api/admin/orders/:id/refresh (src/routes/adminOrders.js)

    The route saves orders of the provider only.  The [pre('validate')] hook
    of the Order schema refuses to store such an order without a [link], so
    the stored ones carry one and the hook passes when they are saved
    again. *)

Definition apply_snapshot_admin (st : Snapshot) (o : Order) : Order :=
  assign_if_truthy (st_currency st) set_currency
    (assign_if (st_remains st) set_remains
      (assign_if (st_start_count st) set_start_count
        (assign_if_truthy (st_charge st) set_charge
          (set_status (or_else (st_status st) (status o)) o)))).

Definition admin_refresh_body (id : ObjectId) : M Response :=
  found ← Order_findById id;
  match found with
  | None => mret (Res 404 (error_body "Order not found"))
  | Some order =>
      if decide (provider order ≠ secsers) then
        mret (Res 400 (error_body "Only Secsers provider orders can be refreshed"))
      else
        match providerOrder_truthy order with
        | None => mret (Res 400 (error_body "No provider order ID"))
        | Some po =>
            st ← secsers_status secsers_status_reply po;
            let order := apply_snapshot_admin st order in
            Order_save id order;;
            mret (Res 200 (order_body order))
        end
  end.

Definition admin_refresh (id : ObjectId) : World → Response * World :=
  handler (admin_refresh_body id)
    (λ e, console_error ("[ADMIN ORDERS] Error refreshing order: " +:+ e);;
          mret (Next e)).

(** *** What one run of the sweep amounts to (src/jobs/orderSync.js)

    Two functions of the loaded order alone, against which the loop is
    proved: the document an order ends as, and the notification created for
    it. *)
Definition sweep_order (o : Order) : Order :=
  if decide (status o ∈ ["Pending"; "In progress"]) then
    default o (sync_update secsers_status_reply o)
  else o.

Definition sync_notification (us : gmap string User) (doc : ObjectId * Order)
    : list Notification :=
  match sync_update secsers_status_reply doc.2 with
  | Some o' =>
      match us !! userId o' with
      | Some _ =>
          [mkNotification (userId o') ("Order #" +:+ doc.1 +:+ " status updated")
             ("Your order for service " +:+ service o' +:+ " has changed from "
              +:+ status doc.2 +:+ " to " +:+ status o' +:+ ".")]
      | None => []
      end
  | None => []
  end.

(** *** POST /api/orders, for the user [uid] (src/jobs/orderSync.js)

    [service] is the string of the body's field and [quantity] its Number;
    the new order and its transaction get the ids [new_order_id] and
    [new_tx_id].  The counter is incremented before the order is inserted,
    and [Order.create] fails on the unique index of [orderNumber] when an
    order has the number already: the error goes to [next] with the counter
    incremented and nothing else written. *)
Definition unit_price (svc : Service) : Z :=
  if decide (userPrice svc = 0) then
    if decide (sv_price svc = 0) then 0 else sv_price svc
  else userPrice svc.

Definition create_order (new_order_id new_tx_id uid : ObjectId)
    (service : string) (quantity : Z) (cat : Catalog) (w : World)
    : Response * Catalog * World :=
  match users w !! uid with
  | None => (Res 404 (error_body "User not found"), cat, w)
  | Some _ =>
      match find_service service (services cat) with
      | None => (Res 400 (error_body "Invalid service ID"), cat, w)
      | Some (sid, svc) =>
          let qty := if decide (quantity = 0) then 1 else quantity in
          let unitPrice := unit_price svc in
          let totalCost := unitPrice * qty in
          let nextOrderNumber := counter_next "orders" (counters cat) in
          let cat' := mkCatalog (services cat)
                        (<["orders" := nextOrderNumber]> (counters cat)) in
          if decide (map_Forall (λ _ o, orderNumber o ≠ Some nextOrderNumber) (orders w))
          then
            let local := mkOrder uid sid None "Pending Admin Approval"
                           (Some (String_of_Z totalCost)) "USD" None None manual None
                           (Some nextOrderNumber) in
            let w1 := with_orders (insert new_order_id local) w in
            let w2 := (Transaction_create new_tx_id
                         (mkTransaction uid ty_order totalCost pending
                            (Some (manual_reference new_order_id)) None
                            (Some nextOrderNumber)) w1).2 in
            (Res 200 (message_body "Manual order created. Waiting for admin approval."),
             cat', w2)
          else (Next (duplicate_key nextOrderNumber), cat', w)
      end
  end.

(** *** POST /api/payments/deposit, for the user [uid]
    (src/routes/fixProviderIds.js, the payments router) *)

(** [lastTx?.orderNumber ? lastTx.orderNumber + 1 : 1] *)
Definition next_deposit_number (txs : gmap string Transaction) : Z :=
  match last_deposit txs with
  | Some last =>
      match tx_orderNumber last with
      | Some n => if decide (n = 0) then 1 else n + 1
      | None => 1
      end
  | None => 1
  end.

Definition sendTelegramAlert : M unit :=
  match telegram with
  | telegram_not_configured => console_log "Telegram alert bot not configured"
  | telegram_sent => console_log "Telegram alert sent!"
  | telegram_failed e => console_error ("Failed to send Telegram alert: " +:+ e)
  end.

Definition create_deposit_body (new_id uid : ObjectId) (amt : Z) (ref : string)
    : M Response :=
  w ← get_world;
  let nextOrderNumber := next_deposit_number (transactions w) in
  Transaction_create new_id
    (mkTransaction uid ty_deposit amt pending (Some ref) None (Some nextOrderNumber));;
  user ← User_findById uid;
  sendTelegramAlert;;
  mret (Res 200 (message_body
    "Deposit request created. Please send the funds and wait for admin confirmation.")).

Definition create_deposit (new_id uid : ObjectId) (amt : Z) (ref : string)
    : World → Response * World :=
  handler (create_deposit_body new_id uid amt ref) (λ e, mret (Next e)).

(** *** POST /api/admin/users/:id/balance (src/unnamed/part_008)

    The body is not validated: [amt] is whatever value [req.body.amount] is,
    [reason] the string of a [req.body.reason] that is there. *)
Definition adjust_balance_body (new_id id : ObjectId) (amt : JsValue)
    (reason : option string) : M Response :=
  if negb (js_truthy amt) then mret (Res 400 (error_body "Valid amount required"))
  else
    match js_number amt with
    | None => mret (Res 400 (error_body "Valid amount required"))
    | Some a =>
        found ← User_findById id;
        match found with
        | None => mret (Res 404 (error_body "User not found"))
        | Some user =>
            let user := set_balance (balance user + a) user in
            User_save id user;;
            Transaction_create new_id
              (mkTransaction id ty_adjustment (Z.abs a) completed
                 (Some ("admin-adjust:" +:+ or_else reason "manual")) None None);;
            mret (Res 200 (message_body "Balance adjusted"))
        end
    end.

Definition adjust_balance (new_id id : ObjectId) (amt : JsValue)
    (reason : option string) : World → Response * World :=
  handler (adjust_balance_body new_id id amt reason) (λ e, mret (Next e)).

(** *** DELETE /api/admin/users/:id (src/unnamed/part_008) *)

Definition delete_user_body (id : ObjectId) : M Response :=
  found ← User_findById id;
  match found with
  | None => mret (Res 404 (error_body "User not found"))
  | Some _ =>
      modify (with_transactions (filter (λ p, tx_userId p.2 ≠ id)));;
      modify (with_orders (filter (λ p, userId p.2 ≠ id)));;
      modify (with_notifications (filter (λ n, n_userId n ≠ id)));;
      modify (with_users (delete id));;
      mret (Res 200 (message_body "User and related data permanently deleted"))
  end.

Definition delete_user (id : ObjectId) : World → Response * World :=
  handler (delete_user_body id) (λ e, mret (Next e)).

End Operations.

(** ** The slug of a saved document (src/models/Service.js; the hooks of
    src/models/Category.js are the same)

    The [pre('save')] hook derives [baseSlug] from the name and then looks
    for a slug that no document has: [baseSlug] itself, then [baseSlug-1],
    [baseSlug-2], and so on.  [used] is the set of the slugs of the
    collection.  The loop of the code has no bound; here it runs on fuel,
    and is shown below to end within one turn more than there are slugs. *)
Definition slug_candidate (baseSlug : string) (counter : Z) : string :=
  baseSlug +:+ "-" +:+ String_of_Z counter.

Fixpoint slug_loop (fuel : nat) (used : gset string) (baseSlug slug : string)
    (counter : Z) : option string :=
  match fuel with
  | O => None
  | S fuel =>
      if decide (slug ∈ used)
      then slug_loop fuel used baseSlug (slug_candidate baseSlug counter) (counter + 1)
      else Some slug
  end.

Definition unique_slug (fuel : nat) (used : gset string) (baseSlug : string)
    : option string :=
  slug_loop fuel used baseSlug baseSlug 1.

(** Two outcomes with the same answer and the same documents. *)
Definition same_answer_and_documents (a b : Response * World) : Prop :=
  a.1 = b.1 ∧ users a.2 = users b.2 ∧ orders a.2 = orders b.2 ∧
  transactions a.2 = transactions b.2 ∧ notifications a.2 = notifications b.2.

(** ** The operations as steps of the store

    One call of a route, or one run of the sweep, with whatever arguments
    and whatever the provider, the mail transport, Telegram and the index do.
    First the operations that only update documents. *)
Inductive update_step : World → World → Prop :=
  | step_confirm_order ToNumber mail id notes w :
      update_step w (confirm_order ToNumber mail id notes w).2
  | step_reject_order mail id reason w :
      update_step w (reject_order mail id reason w).2
  | step_confirm_deposit mail id w :
      update_step w (confirm_deposit mail id w).2
  | step_reject_deposit mail id reason w :
      update_step w (reject_deposit mail id reason w).2
  | step_order_sync reply mail w :
      update_step w (orderSync reply mail w).2
  | step_refresh_status to_string reply mail uid id w :
      update_step w (refresh_status to_string reply mail uid id w).2
  | step_admin_refresh reply id w :
      update_step w (admin_refresh reply id w).2.

(** The deposit route takes the caller from the token without looking the
    user up: its step is for a caller that is a user of the store. *)
Inductive step : World → World → Prop :=
  | step_update w w' :
      update_step w w' → step w w'
  | step_create_order userPrice duplicate_key oid tid uid service quantity cat w :
      step w (create_order userPrice duplicate_key oid tid uid service quantity cat w).2
  | step_create_deposit telegram new_id uid amt ref w :
      is_Some (users w !! uid) →
      step w (create_deposit telegram new_id uid amt ref w).2
  | step_adjust_balance new_id uid amt reason w :
      step w (adjust_balance new_id uid amt reason w).2
  | step_delete_user id w :
      step w (delete_user id w).2.

(** What an operation that only updates keeps: the users there are, and of
    every order and transaction that it is a document of the store with the
    owner, the type and the number it had. *)
Definition keeps_documents (w w' : World) : Prop :=
  (∀ uid, is_Some (users w !! uid) → is_Some (users w' !! uid)) ∧
  (∀ id o', orders w' !! id = Some o' →
            ∃ o, orders w !! id = Some o ∧ userId o' = userId o ∧
                 orderNumber o' = orderNumber o) ∧
  (∀ id t', transactions w' !! id = Some t' →
            ∃ t, transactions w !! id = Some t ∧ tx_userId t' = tx_userId t ∧
                 tx_type t' = tx_type t ∧ tx_orderNumber t' = tx_orderNumber t).

(** ** Every order and every transaction has its user *)

Definition owners_exist (w : World) : Prop :=
  (∀ id o, orders w !! id = Some o → is_Some (users w !! userId o)) ∧
  (∀ id t, transactions w !! id = Some t → is_Some (users w !! tx_userId t)).

(** ** Orders and deposits are numbered apart *)

(** No two orders share a number. *)
Definition orders_numbered (os : gmap string Order) : Prop :=
  ∀ id1 id2 o1 o2 n, os !! id1 = Some o1 → os !! id2 = Some o2 →
                     orderNumber o1 = Some n → orderNumber o2 = Some n → id1 = id2.

(** Every deposit has a positive number, and no two deposits share one. *)
Definition deposits_numbered (txs : gmap string Transaction) : Prop :=
  (∀ id t, txs !! id = Some t → tx_type t = ty_deposit →
           ∃ n, tx_orderNumber t = Some n ∧ 0 < n) ∧
  (∀ id1 id2 t1 t2, txs !! id1 = Some t1 → txs !! id2 = Some t2 →
                    tx_type t1 = ty_deposit → tx_type t2 = ty_deposit →
                    tx_orderNumber t1 = tx_orderNumber t2 → id1 = id2).

(** ** Scenarios *)

(** A service of price 10, found by its slug. *)
Definition followers_service : Service := mkService 10 (Some "instagram-followers").

(** The price for the user of a local service whose price has no more than
    two decimals: the price. *)
Definition price_as_listed (svc : Service) : Z := sv_price svc.

(** A catalogue of one service, the counter of order numbers at 6. *)
Definition shop : Catalog :=
  mkCatalog {[ "5f1d7f3e9b1e8a0012345678" := followers_service ]} {[ "orders" := 6 ]}.

(** The catalogue after one more number was taken. *)
Definition shop_at_7 : Catalog :=
  mkCatalog (services shop) {[ "orders" := 7 ]}.


(** The message of the index for a number in use. *)
Definition index_error (n : Z) : exn :=
  "E11000 duplicate key error collection: orders index: orderNumber_1 dup key: "
  +:+ String_of_Z n.

(** A provider that cannot be reached. *)
Definition reply_fails (po : Z) : exn + Snapshot :=
  inl "Request failed with status code 502".

(** Two slugs in use. *)
Definition slugs_in_use : gset string :=
  {[ "instagram-followers"; "instagram-followers-1" ]}.
(** * Properties *)

(** Unfolds the operations of the monad and of the database, leaving the
    lookups in the store to be rewritten with the hypotheses. *)
Ltac munfold :=
  unfold handler, deduct_charge, try_catch, Order_findById, User_findById,
    Transaction_findById, Transaction_findOne_reference, Order_find_status_in, Order_findOne_owned,
    Order_save, User_save, Transaction_save, Notification_create, console_error,
    console_log, populated_id, populated_email, sendMail, secsers_status,
    mbind, M_bind, mret, M_ret, throw, get_world, modify.

(** Splits on the outcome of the mail transport and on the remaining tests. *)
Ltac mcases := repeat case_match; simplify_eq/=; try done.

(** ** Looking a transaction up by its reference *)

Lemma find_reference_Some ref txs tid t :
  find_reference ref txs = Some (tid, t) →
  txs !! tid = Some t ∧ reference t = Some ref.
Proof.
  unfold find_reference. intros H.
  apply fmap_Some in H as [[i [tid' t']] [Hfind Heq]].
  simpl in Heq. inversion Heq; subst tid' t'.
  apply list_find_Some in Hfind as (Hl & Hp & _).
  split; [|exact Hp].
  apply elem_of_map_to_list. eapply list_elem_of_lookup_2. exact Hl.
Qed.

Lemma find_reference_None ref txs :
  find_reference ref txs = None ↔
  ∀ tid t, txs !! tid = Some t → reference t ≠ Some ref.
Proof.
  unfold find_reference. rewrite fmap_None, list_find_None, Forall_forall.
  split.
  - intros H tid t Ht. apply (H (tid, t)). by apply elem_of_map_to_list.
  - intros H [tid t] Hin. apply elem_of_map_to_list in Hin. simpl. by apply (H tid).
Qed.


(** ** The charge read as a number *)

Section ChargeCoercion.
Variable ToNumber : string → option Z.
Hypothesis ToNumber_empty : ToNumber "" = Some 0.

(** Under the guard of the deduction, [Number(order.charge || 0)] is a number. *)
Lemma geq_charge_Number b c :
  geq_charge ToNumber b c = true → is_Some (Number_charge_or_0 ToNumber c).
Proof.
  unfold geq_charge, Number_charge_or_0. intros H.
  destruct c as [s|]; [|done].
  destruct (decide (s = "")); [done|].
  destruct (ToNumber s); [done|discriminate].
Qed.


End ChargeCoercion.

(** ** The approval flow of manual orders *)

Section ManualOrders.
Variable ToNumber : string → option Z.
Hypothesis ToNumber_empty : ToNumber "" = Some 0.
Variable transporter_sendMail : Mail → option exn.

(** A confirm on an order that is not a manual order awaiting approval is
    answered by a guard, before any write. *)
Lemma confirm_order_guard id notes w o :
  orders w !! id = Some o →
  provider o ≠ manual ∨ status o ≠ "Pending Admin Approval" →
  ∃ msg, confirm_order ToNumber transporter_sendMail id notes w = (Res 400 (error_body msg), w).
Proof.
  intros Ho Hguard.
  unfold confirm_order, confirm_order_body. munfold. rewrite Ho.
  destruct (decide (provider o ≠ manual)); [by eexists|].
  destruct (decide (status o ≠ "Pending Admin Approval")); [by eexists|].
  destruct Hguard; done.
Qed.

Lemma reject_order_guard id reason w o :
  orders w !! id = Some o →
  provider o ≠ manual ∨ status o ≠ "Pending Admin Approval" →
  ∃ msg, reject_order transporter_sendMail id reason w = (Res 400 (error_body msg), w).
Proof.
  intros Ho Hguard.
  unfold reject_order, reject_order_body. munfold. rewrite Ho.
  destruct (decide (provider o ≠ manual)); [by eexists|].
  destruct (decide (status o ≠ "Pending Admin Approval")); [by eexists|].
  destruct Hguard; done.
Qed.

(** On a manual order awaiting approval the order is written first, so
    the new status is stored whatever happens afterwards. *)
Lemma confirm_order_pending_orders id notes w o :
  orders w !! id = Some o →
  provider o = manual →
  status o = "Pending Admin Approval" →
  orders (confirm_order ToNumber transporter_sendMail id notes w).2
  = <[id := set_adminNotes (or_else notes "Confirmed by admin")
              (set_status "Completed" o)]> (orders w).
Proof.
  intros Ho Hp Hs.
  unfold confirm_order, confirm_order_body. munfold. rewrite Ho.
  destruct (decide (provider o ≠ manual)); [done|].
  destruct (decide (status o ≠ "Pending Admin Approval")); [done|].
  cbn. mcases.
Qed.

Lemma reject_order_pending_orders id reason w o :
  orders w !! id = Some o →
  provider o = manual →
  status o = "Pending Admin Approval" →
  orders (reject_order transporter_sendMail id reason w).2
  = <[id := set_adminNotes (or_else reason "Rejected by admin")
              (set_status "Rejected" o)]> (orders w).
Proof.
  intros Ho Hp Hs.
  unfold reject_order, reject_order_body. munfold. rewrite Ho.
  destruct (decide (provider o ≠ manual)); [done|].
  destruct (decide (status o ≠ "Pending Admin Approval")); [done|].
  cbn. mcases.
Qed.



(** C9.  Confirming a manual order awaiting approval for which no
    transaction carries the reference [manual-order:<id>] answers with
    success and stores the status "Completed"; no transaction and no balance
    changes. *)
Theorem confirm_order_without_transaction id notes w o u :
  orders w !! id = Some o →
  provider o = manual →
  status o = "Pending Admin Approval" →
  users w !! userId o = Some u →
  (∀ tid t, transactions w !! tid = Some t →
            reference t ≠ Some (manual_reference id)) →
  let '(r, w') := confirm_order ToNumber transporter_sendMail id notes w in
  r = Res 200 (message_body "Manual order confirmed") ∧
  is_success r = true ∧
  status <$> orders w' !! id = Some "Completed" ∧
  transactions w' = transactions w ∧
  users w' = users w.
Proof.
  intros Ho Hp Hs Hu Hnone.
  apply find_reference_None in Hnone.
  unfold confirm_order, confirm_order_body. munfold. rewrite Ho, Hu.
  destruct (decide (provider o ≠ manual)); [done|].
  destruct (decide (status o ≠ "Pending Admin Approval")); [done|].
  cbn. rewrite Hnone.
  destruct (transporter_sendMail _); cbn;
    rewrite !lookup_insert_eq; done.
Qed.



(** Once an order is no manual order awaiting approval, every further call
    is answered by a guard and leaves the store as it is. *)
Lemma order_calls_after_terminal id cs w o :
  orders w !! id = Some o →
  provider o ≠ manual ∨ status o ≠ "Pending Admin Approval" →
  ∃ rs, run_calls (order_call ToNumber transporter_sendMail id) cs w = (rs, w) ∧
        Forall is_guard_error rs.
Proof.
  intros Ho Hguard. induction cs as [|c cs IH]; simpl.
  - by exists [].
  - assert (∃ msg, order_call ToNumber transporter_sendMail id c w
                   = (Res 400 (error_body msg), w)) as [msg ->].
    { destruct c; simpl;
        [by eapply confirm_order_guard | by eapply reject_order_guard]. }
    destruct IH as (rs & -> & Hrs).
    eexists; split; [done|]. constructor; [by exists msg|done].
Qed.

(** C4.  A confirm or a reject on an order that is not a manual order
    awaiting approval is answered by an error and changes nothing in the
    store.  On a manual order awaiting approval the first call stores its
    terminal status, "Completed" for a confirm and "Rejected" for a reject;
    every later call of a sequence is answered by an error and changes
    nothing, so the order keeps that one terminal status. *)
Theorem manual_order_single_terminal_state id w o :
  orders w !! id = Some o →
  (provider o ≠ manual ∨ status o ≠ "Pending Admin Approval" →
   ∀ c, ∃ msg, order_call ToNumber transporter_sendMail id c w
               = (Res 400 (error_body msg), w)) ∧
  (provider o = manual → status o = "Pending Admin Approval" →
   ∀ c cs,
     let '(r1, w1) := order_call ToNumber transporter_sendMail id c w in
     let '(rs, w2) := run_calls (order_call ToNumber transporter_sendMail id) cs w1 in
     status <$> orders w1 !! id = Some (terminal_status c) ∧
     w2 = w1 ∧
     Forall is_guard_error rs).
Proof.
  intros Ho. split.
  - intros Hguard [notes|reason]; simpl;
      [by eapply confirm_order_guard | by eapply reject_order_guard].
  - intros Hp Hs c cs.
    destruct (order_call ToNumber transporter_sendMail id c w) as [r1 w1] eqn:E1.
    assert (∃ o1, orders w1 !! id = Some o1 ∧ status o1 = terminal_status c)
      as (o1 & Ho1 & Hs1).
    { destruct c as [notes|reason]; simpl in E1.
      - pose proof (confirm_order_pending_orders id notes w o Ho Hp Hs) as H.
        rewrite E1 in H. simpl in H. rewrite H, lookup_insert_eq. by eexists.
      - pose proof (reject_order_pending_orders id reason w o Ho Hp Hs) as H.
        rewrite E1 in H. simpl in H. rewrite H, lookup_insert_eq. by eexists. }
    destruct (order_calls_after_terminal id cs w1 o1 Ho1) as (rs & -> & Hrs).
    { right. rewrite Hs1. by destruct c. }
    rewrite Ho1. simpl. by rewrite Hs1.
Qed.

End ManualOrders.

(** ** Deposits *)

Section Deposits.
Variable transporter_sendMail : Mail → option exn.

(** A confirm or a reject of a transaction that is no pending deposit is
    answered by a guard, before any write. *)
Lemma deposit_call_guard id c w tx :
  transactions w !! id = Some tx →
  tx_type tx ≠ ty_deposit ∨ tx_status tx ≠ pending →
  ∃ msg, deposit_call transporter_sendMail id c w = (Res 400 (error_body msg), w).
Proof.
  intros Htx Hguard.
  destruct c as [notes|reason]; simpl;
    unfold confirm_deposit, confirm_deposit_body, reject_deposit, reject_deposit_body;
    munfold; rewrite Htx;
    (destruct (decide (tx_type tx ≠ ty_deposit)); [by eexists|]);
    (destruct (decide (tx_status tx = completed)); [by eexists|]);
    (destruct (decide (tx_status tx = failed)); [by eexists|]);
    destruct Hguard as [|Hst]; [done| |done|];
    destruct (tx_status tx); done.
Qed.

Lemma deposit_calls_after_settled id cs w tx :
  transactions w !! id = Some tx →
  tx_type tx ≠ ty_deposit ∨ tx_status tx ≠ pending →
  ∃ rs, run_calls (deposit_call transporter_sendMail id) cs w = (rs, w) ∧
        Forall is_guard_error rs.
Proof.
  intros Htx Hguard. induction cs as [|c cs IH]; simpl.
  - by exists [].
  - destruct (deposit_call_guard id c w tx Htx Hguard) as [msg ->].
    destruct IH as (rs & -> & Hrs).
    eexists; split; [done|]. constructor; [by exists msg|done].
Qed.

(** What a confirm writes on a pending deposit: the transaction first, then
    the balance of the owner, when there is one. *)
Lemma confirm_deposit_pending id w tx :
  transactions w !! id = Some tx →
  tx_type tx = ty_deposit →
  tx_status tx = pending →
  let w' := (confirm_deposit transporter_sendMail id w).2 in
  transactions w' = <[id := set_tx_status completed tx]> (transactions w) ∧
  users w' = match users w !! tx_userId tx with
             | Some u => <[tx_userId tx := set_balance (balance u + amount tx) u]> (users w)
             | None => users w
             end.
Proof.
  intros Htx Hty Hst.
  unfold confirm_deposit, confirm_deposit_body. munfold. rewrite Htx.
  destruct (decide (tx_type tx ≠ ty_deposit)); [done|].
  destruct (decide (tx_status tx = completed)); [congruence|].
  destruct (decide (tx_status tx = failed)); [congruence|].
  cbn. destruct (users w !! tx_userId tx); cbn; [|done].
  destruct (transporter_sendMail _); done.
Qed.

Lemma reject_deposit_pending id reason w tx :
  transactions w !! id = Some tx →
  tx_type tx = ty_deposit →
  tx_status tx = pending →
  let w' := (reject_deposit transporter_sendMail id reason w).2 in
  transactions w'
  = <[id := set_rejectReason (or_else reason "No reason provided")
              (set_tx_status failed tx)]> (transactions w) ∧
  users w' = users w.
Proof.
  intros Htx Hty Hst.
  unfold reject_deposit, reject_deposit_body. munfold. rewrite Htx.
  destruct (decide (tx_type tx ≠ ty_deposit)); [done|].
  destruct (decide (tx_status tx = completed)); [congruence|].
  destruct (decide (tx_status tx = failed)); [congruence|].
  cbn. destruct (users w !! tx_userId tx); cbn; [|done].
  destruct (transporter_sendMail _); done.
Qed.


(** C10.  Confirming or rejecting a deposit that is already completed or
    failed is answered by an error and leaves the whole store, hence the
    status, the reject reason and every balance, as it was.  Consequently,
    whatever sequence of confirms and rejects is run on one deposit, the
    balances end either untouched or with the amount added once to the
    owner's. *)
Theorem settled_deposit_is_final id w tx :
  transactions w !! id = Some tx →
  tx_type tx = ty_deposit →
  (tx_status tx = completed ∨ tx_status tx = failed →
   ∀ c, ∃ msg, deposit_call transporter_sendMail id c w
               = (Res 400 (error_body msg), w)) ∧
  (∀ cs,
     let w' := (run_calls (deposit_call transporter_sendMail id) cs w).2 in
     users w' = users w ∨
     ∃ u, users w !! tx_userId tx = Some u ∧
          users w' = <[tx_userId tx := set_balance (balance u + amount tx) u]> (users w)).
Proof.
  intros Htx Hty. split.
  - intros Hst c. apply (deposit_call_guard id c w tx Htx).
    right. destruct Hst as [-> | ->]; done.
  - intros cs. destruct (decide (tx_status tx = pending)) as [Hst|Hst].
    + destruct cs as [|c cs]; simpl; [by left|].
      destruct (deposit_call transporter_sendMail id c w) as [r1 w1] eqn:E1.
      assert (∃ tx1, transactions w1 !! id = Some tx1 ∧
                     tx_type tx1 = ty_deposit ∧ tx_status tx1 ≠ pending ∧
                     (users w1 = users w ∨
                      ∃ u, users w !! tx_userId tx = Some u ∧
                           users w1 = <[tx_userId tx :=
                                         set_balance (balance u + amount tx) u]> (users w)))
        as (tx1 & Htx1 & Hty1 & Hst1 & Husers).
      { destruct c as [notes|reason]; simpl in E1.
        - pose proof (confirm_deposit_pending id w tx Htx Hty Hst) as H.
          rewrite E1 in H. simpl in H. destruct H as [Ht Hu].
          eexists. rewrite Ht, lookup_insert_eq. repeat split; [done..|].
          rewrite Hu. destruct (users w !! tx_userId tx); [right; by eexists|by left].
        - pose proof (reject_deposit_pending id reason w tx Htx Hty Hst) as H.
          rewrite E1 in H. simpl in H. destruct H as [Ht Hu].
          eexists. rewrite Ht, lookup_insert_eq. repeat split; [done..|by left]. }
      destruct (deposit_calls_after_settled id cs w1 tx1 Htx1) as (rs & -> & _);
        [by right|]. done.
    + destruct (deposit_calls_after_settled id cs w tx Htx) as (rs & -> & _);
        [by right|]. by left.
Qed.

End Deposits.

(** ** Reconciliation with the provider *)

Lemma status_changed_Some st stored s :
  status_changed st stored = Some s ↔ st_status st = Some s ∧ s ≠ "" ∧ s ≠ stored.
Proof.
  unfold status_changed. destruct (st_status st) as [s'|].
  - destruct (decide (s' = "")) as [->|Hne].
    + split; [done|]. intros (Heq & Hs & _); simplify_eq; done.
    + destruct (decide (s' ≠ stored)) as [Hd|Hd].
      * split; [intros [= <-]; done|]. intros (Heq & _). done.
      * split; [done|]. intros (Heq & _ & Hs); simplify_eq; try by destruct Hd.
  - split; [done|]. intros (Heq & _). done.
Qed.

Lemma status_changed_same st stored :
  st_status st = Some stored → status_changed st stored = None.
Proof.
  unfold status_changed. intros ->.
  destruct (decide (stored = "")); [done|].
  destruct (decide (stored ≠ stored)); done.
Qed.

Lemma status_apply_snapshot_sync s st o : status (apply_snapshot_sync s st o) = s.
Proof.
  unfold apply_snapshot_sync, assign_if_truthy, assign_if.
  repeat case_match; done.
Qed.

Lemma userId_apply_snapshot_sync s st o :
  userId (apply_snapshot_sync s st o) = userId o.
Proof.
  unfold apply_snapshot_sync, assign_if_truthy, assign_if.
  repeat case_match; done.
Qed.

Section Reconciliation.
Variable String_of_Number : string → string.
Variable secsers_status_reply : Z → exn + Snapshot.
Variable transporter_sendMail : Mail → option exn.





(** *** One order of the sweep *)

(** The body of the loop catches what it throws. *)
Lemma sync_order_returns doc w :
  (sync_order secsers_status_reply transporter_sendMail doc w).1 = Return tt.
Proof.
  destruct doc as [id o]. unfold sync_order. munfold.
  repeat case_match; simplify_eq/=; done.
Qed.

(** It writes the loaded order back under its id, or no order at all. *)
Lemma sync_order_orders id o w :
  orders (sync_order secsers_status_reply transporter_sendMail (id, o) w).2
  = match sync_update secsers_status_reply o with
    | Some o' => <[id := o']> (orders w)
    | None => orders w
    end.
Proof.
  unfold sync_order, sync_update. munfold.
  repeat case_match; simplify_eq/=; done.
Qed.

(** The console only grows. *)
Lemma sync_order_console doc w :
  ∃ lines, console (sync_order secsers_status_reply transporter_sendMail doc w).2
           = console w ++ lines.
Proof.
  destruct doc as [id o]. unfold sync_order. munfold.
  repeat case_match; simplify_eq/=;
    rewrite <- ?app_assoc; try (by eexists); exists []; by rewrite app_nil_r.
Qed.

(** A failed request is logged, and nothing else happens. *)
Lemma sync_order_failure id o po e w :
  providerOrder_truthy o = Some po →
  secsers_status_reply po = inl e →
  sync_order secsers_status_reply transporter_sendMail (id, o) w
  = (Return tt,
     with_console (λ l, l ++ ["Failed to update order " +:+ id +:+ ": " +:+ e]) w).
Proof.
  intros Hpo Hreply. unfold sync_order. munfold. by rewrite Hpo, Hreply.
Qed.

(** *** The loop over the loaded orders *)

Lemma for_of_cons {A} (x : A) xs (body : A → M unit) w :
  for_of (x :: xs) body w
  = match body x w with
    | (Return _, w') => for_of xs body w'
    | (Throw e, w') => (Throw e, w')
    end.
Proof. reflexivity. Qed.

Lemma sync_order_step doc docs w :
  for_of (doc :: docs) (sync_order secsers_status_reply transporter_sendMail) w
  = for_of docs (sync_order secsers_status_reply transporter_sendMail)
      (sync_order secsers_status_reply transporter_sendMail doc w).2.
Proof.
  rewrite for_of_cons.
  pose proof (sync_order_returns doc w) as Hret.
  destruct (sync_order secsers_status_reply transporter_sendMail doc w) as [r w1].
  simpl in Hret. by rewrite Hret.
Qed.

(** The loop never throws. *)
Lemma for_of_sync_order_returns docs w :
  (for_of docs (sync_order secsers_status_reply transporter_sendMail) w).1 = Return tt.
Proof.
  revert w. induction docs as [|doc docs IH]; intros w; [done|].
  rewrite sync_order_step. apply IH.
Qed.

(** An order that is not among the loaded ones is left alone. *)
Lemma for_of_sync_order_other docs id w :
  id ∉ docs.*1 →
  orders (for_of docs (sync_order secsers_status_reply transporter_sendMail) w).2 !! id
  = orders w !! id.
Proof.
  revert w. induction docs as [|[id' o'] docs IH]; intros w Hnotin; [done|].
  rewrite sync_order_step, IH, sync_order_orders.
  - destruct (sync_update _ o'); [|done].
    apply lookup_insert_ne. intros ->. apply Hnotin. simpl. left.
  - intros Hin. apply Hnotin. simpl. by right.
Qed.

(** A loaded order ends as the loop body leaves it. *)
Lemma for_of_sync_order_orders docs id o w :
  NoDup docs.*1 →
  (id, o) ∈ docs →
  orders (for_of docs (sync_order secsers_status_reply transporter_sendMail) w).2 !! id
  = match sync_update secsers_status_reply o with
    | Some o' => Some o'
    | None => orders w !! id
    end.
Proof.
  revert w. induction docs as [|[id' o'] docs IH]; intros w Hnodup Hin.
  - by apply elem_of_nil in Hin.
  - simpl in Hnodup. apply NoDup_cons in Hnodup as [Hfresh Hnodup].
    rewrite sync_order_step.
    apply elem_of_cons in Hin as [[= <- <-]|Hin].
    + rewrite for_of_sync_order_other by done.
      rewrite sync_order_orders.
      destruct (sync_update _ o); [by rewrite lookup_insert_eq|done].
    + rewrite IH, sync_order_orders by done.
      destruct (sync_update _ o); [done|].
      destruct (sync_update _ o'); [|done].
      apply lookup_insert_ne. intros ->. apply Hfresh.
      apply list_elem_of_fmap. by exists (id, o).
Qed.

(** A line on the console stays there. *)
Lemma for_of_sync_order_console docs line w :
  line ∈ console w →
  line ∈ console (for_of docs (sync_order secsers_status_reply transporter_sendMail) w).2.
Proof.
  revert w. induction docs as [|doc docs IH]; intros w Hin; [done|].
  rewrite sync_order_step. apply IH.
  destruct (sync_order_console doc w) as [lines ->].
  apply elem_of_app. by left.
Qed.

(** The failed request of a loaded order is on the console at the end. *)
Lemma for_of_sync_order_failure docs id o po e w :
  (id, o) ∈ docs →
  providerOrder_truthy o = Some po →
  secsers_status_reply po = inl e →
  ("Failed to update order " +:+ id +:+ ": " +:+ e)
  ∈ console (for_of docs (sync_order secsers_status_reply transporter_sendMail) w).2.
Proof.
  revert w. induction docs as [|doc docs IH]; intros w Hin Hpo Hreply.
  - by apply elem_of_nil in Hin.
  - rewrite sync_order_step.
    apply elem_of_cons in Hin as [<-|Hin]; [|by apply IH].
    apply for_of_sync_order_console.
    rewrite (sync_order_failure id o po e w Hpo Hreply). simpl.
    apply elem_of_app. right. by apply list_elem_of_singleton.
Qed.

(** The orders the query loads: each open order of the store, once. *)
Lemma open_orders_spec (w : World) id o :
  (id, o) ∈ filter (λ p, status p.2 ∈ ["Pending"; "In progress"]) (map_to_list (orders w))
  ↔ orders w !! id = Some o ∧ status o ∈ ["Pending"; "In progress"].
Proof.
  rewrite list_elem_of_filter, elem_of_map_to_list. simpl.
  split; intros [H1 H2]; done.
Qed.

Lemma open_orders_NoDup (w : World) :
  NoDup (filter (λ p, status p.2 ∈ ["Pending"; "In progress"])
           (map_to_list (orders w))).*1.
Proof.
  apply (sublist_NoDup _ (map_to_list (orders w)).*1).
  - apply NoDup_fst_map_to_list.
  - apply fmap_sublist, sublist_filter.
Qed.

(** What one run of the job leaves: the loop's store, and no error. *)
Lemma orderSync_run w :
  orderSync secsers_status_reply transporter_sendMail w
  = (Return tt,
     (for_of (filter (λ p, status p.2 ∈ ["Pending"; "In progress"])
                (map_to_list (orders w)))
        (sync_order secsers_status_reply transporter_sendMail)
        (with_console (λ l, l ++ ["Running order sync job..."]) w)).2).
Proof.
  unfold orderSync. munfold. cbn.
  pose proof (for_of_sync_order_returns
    (filter (λ p, status p.2 ∈ ["Pending"; "In progress"]) (map_to_list (orders w)))
    (with_console (λ l, l ++ ["Running order sync job..."]) w)) as Hret.
  destruct (for_of _ _ _) as [r w1]. simpl in Hret. by rewrite Hret.
Qed.

(** C6.  One run of the sweep never throws.  For an open order with a
    provider id whose status request fails, the failure is logged and the
    order is left as it was; every open order with a provider id whose
    request succeeds with a changed status is stored with the reply applied,
    whatever happened to the other orders. *)
Theorem order_sync_isolates_failures w :
  let '(r, w') := orderSync secsers_status_reply transporter_sendMail w in
  r = Return tt ∧
  ∀ id o po,
    orders w !! id = Some o →
    status o ∈ ["Pending"; "In progress"] →
    providerOrder_truthy o = Some po →
    match secsers_status_reply po with
    | inl e =>
        orders w' !! id = Some o ∧
        ("Failed to update order " +:+ id +:+ ": " +:+ e) ∈ console w'
    | inr st =>
        ∀ s, st_status st = Some s → s ≠ "" → s ≠ status o →
             orders w' !! id = Some (apply_snapshot_sync s st o)
    end.
Proof.
  rewrite orderSync_run. split; [done|].
  intros id o po Ho Hopen Hpo.
  assert ((id, o) ∈ filter (λ p, status p.2 ∈ ["Pending"; "In progress"])
                      (map_to_list (orders w))) as Hin
    by (apply open_orders_spec; done).
  pose proof (for_of_sync_order_orders _ id o
    (with_console (λ l, l ++ ["Running order sync job..."]) w)
    (open_orders_NoDup w) Hin) as Hfinal.
  unfold sync_update in Hfinal. rewrite Hpo in Hfinal.
  destruct (secsers_status_reply po) as [e|st] eqn:Hreply.
  - split; [by rewrite Hfinal|].
    by eapply for_of_sync_order_failure.
  - intros s Hs Hne Hdiff.
    assert (status_changed st (status o) = Some s) as Hchanged
      by (apply status_changed_Some; done).
    by rewrite Hchanged in Hfinal.
Qed.

(** *** One reply applied to one order: the sweep and the refresh *)



End Reconciliation.

(** * The scenarios of the specification, run on the code *)



(** C2 at its failing input: the order of charge 20 confirmed for an owner
    holding 5.  The transaction ends [completed] while the balance it should
    have moved is still 5. *)
Lemma confirm_order_completes_without_deduction :
  let w' := (confirm_order decimal_ToNumber mail_delivers "o1" None (manual_world 5)).2 in
  tx_status <$> transactions (manual_world 5) !! "t1" = Some pending ∧
  tx_status <$> transactions w' !! "t1" = Some completed ∧
  amount <$> transactions w' !! "t1" = Some 20 ∧
  balance <$> users (manual_world 5) !! "u1" = Some 5 ∧
  balance <$> users w' !! "u1" = Some 5.
Proof. vm_compute. repeat split; reflexivity. Qed.

(** C9 on a store that holds the order and no transaction. *)
Lemma confirm_order_without_transaction_scenario :
  let '(r, w') := confirm_order decimal_ToNumber mail_delivers "o1" None (manual_world_no_tx 50) in
  r = Res 200 (message_body "Manual order confirmed") ∧
  is_success r = true ∧
  status <$> orders w' !! "o1" = Some "Completed" ∧
  transactions w' = transactions (manual_world_no_tx 50) ∧
  users w' = users (manual_world_no_tx 50).
Proof.
  apply (confirm_order_without_transaction decimal_ToNumber mail_delivers
           "o1" None (manual_world_no_tx 50) manual_20 (alice 50)).
  - vm_compute; reflexivity.
  - reflexivity.
  - reflexivity.
  - vm_compute; reflexivity.
  - intros tid t Hlookup. simpl in Hlookup.
    rewrite lookup_empty in Hlookup. discriminate.
Defined.


(** C4 on the order of the scenario: confirmed, then rejected, then
    confirmed again. *)
Lemma manual_order_single_terminal_state_scenario :
  let '(r1, w1) := order_call decimal_ToNumber mail_delivers "o1" (Confirm None)
                     (manual_world 50) in
  let '(rs, w2) := run_calls (order_call decimal_ToNumber mail_delivers "o1")
                     [Reject (Some "late"); Confirm None] w1 in
  status <$> orders w1 !! "o1" = Some "Completed" ∧
  w2 = w1 ∧
  Forall is_guard_error rs.
Proof.
  assert (orders (manual_world 50) !! "o1" = Some manual_20) as Ho
    by (vm_compute; reflexivity).
  exact (proj2 (manual_order_single_terminal_state decimal_ToNumber mail_delivers
                  "o1" (manual_world 50) manual_20 Ho)
           eq_refl eq_refl (Confirm None) [Reject (Some "late"); Confirm None]).
Defined.


(** C10 on the deposit of 15 once it is confirmed: a second confirm is
    refused, and three more calls leave the balance at 20. *)
Lemma settled_deposit_is_final_scenario :
  let w1 := (confirm_deposit mail_delivers "d1" (deposit_world 5)).2 in
  (∃ msg, deposit_call mail_delivers "d1" (Confirm None) w1
          = (Res 400 (error_body msg), w1)) ∧
  (let w' := (run_calls (deposit_call mail_delivers "d1")
                [Confirm None; Reject (Some "late"); Confirm None] w1).2 in
   users w' = users w1 ∨
   ∃ u, users w1 !! "u1" = Some u ∧
        users w' = <[ "u1" := set_balance (balance u + 15) u ]> (users w1)).
Proof.
  intros w1.
  assert (transactions w1 !! "d1" = Some (set_tx_status completed deposit_15)) as Htx
    by (vm_compute; reflexivity).
  pose proof (settled_deposit_is_final mail_delivers "d1" w1
                (set_tx_status completed deposit_15) Htx eq_refl) as [Hguard Honce].
  split.
  - exact (Hguard (or_introl eq_refl) (Confirm None)).
  - exact (Honce [Confirm None; Reject (Some "late"); Confirm None]).
Defined.

(** C6 on the scenario of the specification: three open orders, the request
    for the second fails; the first and the third are stored as completed. *)
Lemma order_sync_second_fails :
  let '(r, w') := orderSync reply_second_fails mail_delivers sweep_world in
  r = Return tt ∧
  status <$> orders w' !! "a1" = Some "Completed" ∧
  orders w' !! "a2" = Some (provider_order 2 "Pending" 100) ∧
  status <$> orders w' !! "a3" = Some "Completed" ∧
  "Failed to update order a2: Request failed with status code 502" ∈ console w'.
Proof.
  pose proof (order_sync_isolates_failures reply_second_fails mail_delivers sweep_world) as H.
  destruct (orderSync reply_second_fails mail_delivers sweep_world) as [r w'].
  destruct H as [Hr H].
  assert (∀ s : string, s ∈ ["Pending"; "In progress"] ↔ s = "Pending" ∨ s = "In progress")
    as Hopen.
  { intros s. rewrite !elem_of_cons, elem_of_nil. tauto. }
  pose proof (H "a1" (provider_order 1 "Pending" 100) 1
                ltac:(vm_compute; reflexivity) ltac:(apply Hopen; by left) eq_refl) as H1.
  pose proof (H "a2" (provider_order 2 "Pending" 100) 2
                ltac:(vm_compute; reflexivity) ltac:(apply Hopen; by left) eq_refl) as H2.
  pose proof (H "a3" (provider_order 3 "In progress" 100) 3
                ltac:(vm_compute; reflexivity) ltac:(apply Hopen; by right) eq_refl) as H3.
  simpl in H1, H2, H3. destruct H2 as [H2 Hlog].
  rewrite (H1 "Completed" eq_refl ltac:(done) ltac:(done)).
  rewrite (H3 "Completed" eq_refl ltac:(done) ltac:(done)).
  rewrite H2. repeat split; try done.
Defined.



(** * Further properties of the reconciliation *)

Section SweepAsAFunction.
Variable secsers_status_reply : Z → exn + Snapshot.
Variable transporter_sendMail : Mail → option exn.

(** The loop body leaves users and transactions alone and appends the
    notification of its order, whatever the mail transport does. *)
Lemma sync_order_rest doc w :
  let w' := (sync_order secsers_status_reply transporter_sendMail doc w).2 in
  users w' = users w ∧
  transactions w' = transactions w ∧
  notifications w'
  = notifications w ++ sync_notification secsers_status_reply (users w) doc.
Proof.
  destruct doc as [id o]. cbv zeta.
  unfold sync_order, sync_notification, sync_update. munfold. simpl.
  repeat case_match; simplify_eq/=; rewrite ?app_nil_r; try done.
  all: rewrite userId_apply_snapshot_sync in *; simplify_eq; done.
Qed.

Lemma for_of_sync_order_rest docs w :
  let w' := (for_of docs (sync_order secsers_status_reply transporter_sendMail) w).2 in
  users w' = users w ∧
  transactions w' = transactions w ∧
  notifications w'
  = notifications w
    ++ concat (map (sync_notification secsers_status_reply (users w)) docs).
Proof.
  cbv zeta. revert w. induction docs as [|doc docs IH]; intros w.
  - simpl. by rewrite app_nil_r.
  - rewrite sync_order_step.
    destruct (IH (sync_order secsers_status_reply transporter_sendMail doc w).2)
      as (Hu & Ht & Hn).
    destruct (sync_order_rest doc w) as (Hu1 & Ht1 & Hn1).
    rewrite Hu, Ht, Hn, Hu1, Ht1, Hn1. simpl. by rewrite app_assoc.
Qed.

(** The orders after the loop over the open orders of [w]. *)
Lemma for_of_sync_order_map w w0 :
  orders w0 = orders w →
  orders (for_of (filter (λ p, status p.2 ∈ ["Pending"; "In progress"])
                    (map_to_list (orders w)))
            (sync_order secsers_status_reply transporter_sendMail) w0).2
  = sweep_order secsers_status_reply <$> orders w.
Proof.
  intros Hw0. apply map_eq. intros id. rewrite lookup_fmap.
  destruct (orders w !! id) as [o|] eqn:Ho; simpl.
  - unfold sweep_order.
    destruct (decide (status o ∈ ["Pending"; "In progress"])) as [Hopen|Hclosed].
    + rewrite (for_of_sync_order_orders _ _ _ id o w0 (open_orders_NoDup w))
        by (by apply open_orders_spec).
      rewrite Hw0, Ho. by destruct (sync_update _ o).
    + rewrite for_of_sync_order_other; [by rewrite Hw0|].
      intros Hin. apply list_elem_of_fmap in Hin as [[id' o'] [-> Hin]].
      apply open_orders_spec in Hin as [Ho' Hopen]. simpl in *. congruence.
  - rewrite for_of_sync_order_other; [by rewrite Hw0|].
    intros Hin. apply list_elem_of_fmap in Hin as [[id' o'] [-> Hin]].
    apply open_orders_spec in Hin as [Ho' _]. simpl in *. congruence.
Qed.

(** One run of the job, collection by collection. *)
Lemma orderSync_collections w :
  let w' := (orderSync secsers_status_reply transporter_sendMail w).2 in
  users w' = users w ∧
  transactions w' = transactions w ∧
  orders w' = sweep_order secsers_status_reply <$> orders w ∧
  notifications w'
  = notifications w
    ++ concat (map (sync_notification secsers_status_reply (users w))
                 (filter (λ p, status p.2 ∈ ["Pending"; "In progress"])
                    (map_to_list (orders w)))).
Proof.
  cbv zeta. rewrite orderSync_run. simpl.
  destruct (for_of_sync_order_rest
              (filter (λ p, status p.2 ∈ ["Pending"; "In progress"])
                 (map_to_list (orders w)))
              (with_console (λ l, l ++ ["Running order sync job..."]) w))
    as (Hu & Ht & Hn).
  rewrite Hu, Ht, Hn. repeat split; [].
  by apply for_of_sync_order_map.
Qed.

End SweepAsAFunction.

Lemma apply_snapshot_sync_keeps s st o :
  userId (apply_snapshot_sync s st o) = userId o ∧
  service (apply_snapshot_sync s st o) = service o ∧
  provider (apply_snapshot_sync s st o) = provider o ∧
  providerOrder (apply_snapshot_sync s st o) = providerOrder o ∧
  orderNumber (apply_snapshot_sync s st o) = orderNumber o ∧
  adminNotes (apply_snapshot_sync s st o) = adminNotes o.
Proof.
  unfold apply_snapshot_sync, assign_if_truthy, assign_if.
  repeat case_match; done.
Qed.

Section SweepProperties.
Variable secsers_status_reply : Z → exn + Snapshot.

(** What the sweep stores for an order has the status of the reply. *)
Lemma sync_update_Some o o' :
  sync_update secsers_status_reply o = Some o' →
  ∃ po st s, providerOrder_truthy o = Some po ∧
             secsers_status_reply po = inr st ∧
             st_status st = Some s ∧ s ≠ "" ∧ s ≠ status o ∧
             o' = apply_snapshot_sync s st o.
Proof.
  unfold sync_update. intros H.
  destruct (providerOrder_truthy o) as [po|]; [|done].
  destruct (secsers_status_reply po) as [e|st] eqn:Hreply; [done|].
  destruct (status_changed st (status o)) as [s|] eqn:Hchanged; [|done].
  apply status_changed_Some in Hchanged as (Hs & Hne & Hdiff).
  simplify_eq. by exists po, st, s.
Qed.

(** Once stored by the sweep, an order is not stored again for the same
    reply. *)
Lemma sync_update_settled o o' :
  sync_update secsers_status_reply o = Some o' →
  sync_update secsers_status_reply o' = None.
Proof.
  intros H. apply sync_update_Some in H as (po & st & s & Hpo & Hreply & Hs & _ & _ & ->).
  destruct (apply_snapshot_sync_keeps s st o) as (_ & _ & _ & Hk & _).
  unfold sync_update, providerOrder_truthy in *. rewrite Hk, Hpo, Hreply.
  rewrite status_apply_snapshot_sync. by rewrite (status_changed_same st s Hs).
Qed.

Lemma sweep_order_idempotent o :
  sweep_order secsers_status_reply (sweep_order secsers_status_reply o)
  = sweep_order secsers_status_reply o.
Proof.
  unfold sweep_order.
  destruct (decide (status o ∈ ["Pending"; "In progress"])) as [Hopen|Hclosed].
  - destruct (sync_update secsers_status_reply o) as [o'|] eqn:Hup; simpl.
    + rewrite (sync_update_settled o o' Hup). simpl. by destruct (decide _).
    + rewrite Hup. simpl. by destruct (decide _).
  - by destruct (decide _).
Qed.

Lemma sync_update_sweep_order o :
  status (sweep_order secsers_status_reply o) ∈ ["Pending"; "In progress"] →
  sync_update secsers_status_reply (sweep_order secsers_status_reply o) = None.
Proof.
  unfold sweep_order.
  destruct (decide (status o ∈ ["Pending"; "In progress"])) as [Hopen|Hclosed];
    [|done].
  destruct (sync_update secsers_status_reply o) as [o'|] eqn:Hup; simpl; [|done].
  intros _. by eapply sync_update_settled.
Qed.

(** X1.  One run of the sweep changes no user and no transaction, creates and
    deletes no order, leaves every order that is not open or has no provider
    id exactly as it was, and never changes the owner, the service, the
    provider, the provider id, the order number or the admin notes of any
    order. *)
Theorem order_sync_frame transporter_sendMail w :
  let w' := (orderSync secsers_status_reply transporter_sendMail w).2 in
  users w' = users w ∧
  transactions w' = transactions w ∧
  (∀ id, is_Some (orders w' !! id) ↔ is_Some (orders w !! id)) ∧
  (∀ id o, orders w !! id = Some o →
           status o ∉ ["Pending"; "In progress"] ∨ providerOrder_truthy o = None →
           orders w' !! id = Some o) ∧
  (∀ id o o', orders w !! id = Some o → orders w' !! id = Some o' →
              userId o' = userId o ∧ service o' = service o ∧
              provider o' = provider o ∧ providerOrder o' = providerOrder o ∧
              orderNumber o' = orderNumber o ∧ adminNotes o' = adminNotes o).
Proof.
  cbv zeta.
  destruct (orderSync_collections secsers_status_reply transporter_sendMail w)
    as (Hu & Ht & Ho & _).
  rewrite Hu, Ht, Ho.
  split; [done|]. split; [done|]. split; [|split].
  - intros id. rewrite lookup_fmap. by rewrite fmap_is_Some.
  - intros id o Hlookup Hskip. rewrite lookup_fmap, Hlookup. simpl. f_equal.
    unfold sweep_order. destruct (decide _) as [Hopen|]; [|done].
    destruct Hskip as [Hclosed|Hnone]; [done|].
    unfold sync_update. by rewrite Hnone.
  - intros id o o' Hlookup. rewrite lookup_fmap, Hlookup. simpl. intros [= <-].
    unfold sweep_order. destruct (decide _); [|done].
    destruct (sync_update secsers_status_reply o) as [o'|] eqn:Hup; simpl; [|done].
    apply sync_update_Some in Hup as (po & st & s & _ & _ & _ & _ & _ & ->).
    destruct (apply_snapshot_sync_keeps s st o) as (? & ? & ? & ? & ? & ?). done.
Qed.

(** X2.  A second run of the sweep against the same replies of the provider
    changes no order and creates no notification: every status change is
    stored once and notified once. *)
Theorem order_sync_twice mail1 mail2 w :
  let w1 := (orderSync secsers_status_reply mail1 w).2 in
  let w2 := (orderSync secsers_status_reply mail2 w1).2 in
  orders w2 = orders w1 ∧
  notifications w2 = notifications w1 ∧
  users w2 = users w1 ∧
  transactions w2 = transactions w1.
Proof.
  cbv zeta.
  destruct (orderSync_collections secsers_status_reply mail1 w) as (Hu1 & Ht1 & Ho1 & _).
  destruct (orderSync_collections secsers_status_reply mail2
              (orderSync secsers_status_reply mail1 w).2) as (Hu2 & Ht2 & Ho2 & Hn2).
  rewrite Hu2, Ht2, Ho2, Hn2.
  split; [|split; [|done]].
  - rewrite Ho1, <- map_fmap_compose. apply map_fmap_ext.
    intros id o _. apply sweep_order_idempotent.
  - rewrite <- (app_nil_r (notifications _)) at 2. f_equal.
    apply concat_nil_Forall, Forall_forall. intros l Hl.
    apply list_elem_of_fmap in Hl as [[id o1] [-> Hin]].
    apply open_orders_spec in Hin as [Hlookup Hopen].
    rewrite Ho1, lookup_fmap in Hlookup.
    destruct (orders w !! id) as [o|]; simplify_eq/=.
    unfold sync_notification. simpl.
    by rewrite (sync_update_sweep_order o Hopen).
Qed.

(** X3.  Whether mails are delivered or not changes nothing in what the sweep
    stores: two runs that differ only in the outcome of the mail transport
    end with the same users, transactions, orders and notifications. *)
Theorem order_sync_mail_independent mail1 mail2 w :
  let w1 := (orderSync secsers_status_reply mail1 w).2 in
  let w2 := (orderSync secsers_status_reply mail2 w).2 in
  users w1 = users w2 ∧
  transactions w1 = transactions w2 ∧
  orders w1 = orders w2 ∧
  notifications w1 = notifications w2.
Proof.
  cbv zeta.
  destruct (orderSync_collections secsers_status_reply mail1 w) as (-> & -> & -> & ->).
  destruct (orderSync_collections secsers_status_reply mail2 w) as (-> & -> & -> & ->).
  done.
Qed.

End SweepProperties.

(** * Further properties of the routes on one order *)

Section RefreshProperties.
Variable String_of_Number : string → string.
Variable secsers_status_reply : Z → exn + Snapshot.
Variable transporter_sendMail : Mail → option exn.

(** X4.  The user's refresh answers 404 "Order not found", and changes
    nothing, both for an id that names no order and for the order of
    somebody else: the two cases cannot be told apart.  On the user's own
    order it answers 400, and changes nothing, when the order is not a
    provider order or has no provider id. *)
Theorem refresh_status_refusals uid id w :
  (orders w !! id = None ∨ (∃ o, orders w !! id = Some o ∧ userId o ≠ uid) →
   refresh_status String_of_Number secsers_status_reply transporter_sendMail uid id w
   = (Res 404 (error_body "Order not found"), w)) ∧
  (∀ o, orders w !! id = Some o → userId o = uid →
        provider o ≠ secsers ∨ providerOrder_truthy o = None →
        ∃ msg, refresh_status String_of_Number secsers_status_reply
                 transporter_sendMail uid id w
               = (Res 400 (error_body msg), w)).
Proof.
  split.
  - intros Hcase. unfold refresh_status, refresh_status_body. munfold.
    destruct Hcase as [-> | (o & -> & Hother)]; [done|].
    by destruct (decide (userId o = uid)).
  - intros o Ho Huid Hcase. unfold refresh_status, refresh_status_body. munfold.
    rewrite Ho. destruct (decide (userId o = uid)); [|done].
    destruct (decide (provider o ≠ secsers)); [by eexists|].
    destruct Hcase as [Hprov | ->]; [done|by eexists].
Qed.

(** X5.  When the provider's request fails during the user's refresh, the
    error is handed on to the caller and nothing is written: no order
    changes, no notification is created, no mail is sent. *)
Theorem refresh_status_provider_failure uid id w o po e :
  orders w !! id = Some o →
  userId o = uid →
  provider o = secsers →
  providerOrder_truthy o = Some po →
  secsers_status_reply po = inl e →
  refresh_status String_of_Number secsers_status_reply transporter_sendMail uid id w
  = (Next e, w).
Proof.
  intros Ho Huid Hprov Hpo Hreply.
  unfold refresh_status, refresh_status_body. munfold. rewrite Ho.
  destruct (decide (userId o = uid)); [|done].
  destruct (decide (provider o ≠ secsers)); [done|].
  by rewrite Hpo, Hreply.
Qed.


End RefreshProperties.

(** * Further properties of the admin's confirm and reject *)

(** Splits on the tests a route makes after its guards, one at a time. *)
Ltac route_cases :=
  repeat match goal with
  | |- context [find_reference ?r ?t] =>
      destruct (find_reference r t) as [[? ?]|] eqn:?; cbn
  | |- context [users ?w !! ?k] => destruct (users w !! k) eqn:?; cbn
  | |- context [geq_charge ?f ?b ?c] => destruct (geq_charge f b c) eqn:?; cbn
  | |- context [Number_charge_or_0 ?f ?c] =>
      destruct (Number_charge_or_0 f c) eqn:?; cbn
  end.

Ltac mail_cases mail :=
  repeat match goal with
  | |- context [mail ?m] => destruct (mail m) eqn:?; cbn
  end.

Section ApprovalFrame.
Variable ToNumber : string → option Z.
Variable transporter_sendMail : Mail → option exn.

(** X7.  A confirm or a reject of the order [id] changes no other order; it
    changes no user but the owner of that order; and it changes no
    transaction but one that carries the reference [manual-order:<id>]. *)
Theorem order_call_frame id c w :
  let w' := (order_call ToNumber transporter_sendMail id c w).2 in
  (∀ id', id' ≠ id → orders w' !! id' = orders w !! id') ∧
  (∀ uid, users w' !! uid ≠ users w !! uid →
          ∃ o, orders w !! id = Some o ∧ userId o = uid) ∧
  (∀ tid, transactions w' !! tid ≠ transactions w !! tid →
          ∃ t, transactions w !! tid = Some t ∧
               reference t = Some (manual_reference id)).
Proof.
  cbv zeta.
  assert (∀ (us us' : gmap string User) (o : Order),
            (us' = us ∨ ∃ u, us' = <[userId o := u]> us) →
            ∀ uid, us' !! uid ≠ us !! uid → orders w !! id = Some o →
                   ∃ o, orders w !! id = Some o ∧ userId o = uid) as Husers.
  { intros us us' o [->|[u ->]] uid Hdiff Ho; [done|].
    destruct (decide (uid = userId o)) as [->|Hne]; [by exists o|].
    by rewrite lookup_insert_ne in Hdiff. }
  assert (∀ (ts ts' : gmap string Transaction),
            (ts' = ts ∨ ∃ tid t t', ts' = <[tid := t']> ts ∧ ts !! tid = Some t ∧
                                    reference t = Some (manual_reference id)) →
            ∀ tid, ts' !! tid ≠ ts !! tid →
                   ∃ t, ts !! tid = Some t ∧
                        reference t = Some (manual_reference id)) as Htxs.
  { intros ts ts' [->|(tid0 & t & t' & -> & Ht & Hr)] tid Hdiff; [done|].
    destruct (decide (tid = tid0)) as [->|Hne]; [by exists t|].
    by rewrite lookup_insert_ne in Hdiff. }
  destruct c as [notes|reason]; simpl.
  - unfold confirm_order, confirm_order_body. munfold.
    destruct (orders w !! id) as [o|] eqn:Ho; [|by repeat split].
    destruct (decide (provider o ≠ manual)); [by repeat split|].
    destruct (decide (status o ≠ "Pending Admin Approval")); [by repeat split|].
    cbn.
    destruct (find_reference (manual_reference id) (transactions w))
      as [[tid0 t0]|] eqn:Hfind;
      [apply find_reference_Some in Hfind as [Ht0 Hr0]|]; cbn;
      route_cases; mail_cases transporter_sendMail;
      (split; [intros id' Hne; by rewrite lookup_insert_ne|]);
      (split; [intros uid Hdiff; eapply (Husers _ _ o); [|exact Hdiff|done];
               first [by left | right; by eexists]|]);
      intros tid Hdiff;
      (eapply Htxs; [|exact Hdiff]; first [by left | right; by eexists _, _, _]).
  - unfold reject_order, reject_order_body. munfold.
    destruct (orders w !! id) as [o|] eqn:Ho; [|by repeat split].
    destruct (decide (provider o ≠ manual)); [by repeat split|].
    destruct (decide (status o ≠ "Pending Admin Approval")); [by repeat split|].
    cbn.
    destruct (find_reference (manual_reference id) (transactions w))
      as [[tid0 t0]|] eqn:Hfind;
      [apply find_reference_Some in Hfind as [Ht0 Hr0]|]; cbn;
      route_cases; mail_cases transporter_sendMail;
      (split; [intros id' Hne; by rewrite lookup_insert_ne|]);
      (split; [intros uid Hdiff; eapply (Husers _ _ o); [|exact Hdiff|done];
               first [by left | right; by eexists]|]);
      intros tid Hdiff;
      (eapply Htxs; [|exact Hdiff]; first [by left | right; by eexists _, _, _]).
Qed.

(** X8.  A reject never changes a balance: whatever the order or the deposit
    it is called on, and although the answer for an order reads "rejected
    and refunded", the users are as before. *)
Theorem rejects_leave_users id reason w :
  users (reject_order transporter_sendMail id reason w).2 = users w ∧
  users (reject_deposit transporter_sendMail id reason w).2 = users w.
Proof.
  split.
  - unfold reject_order, reject_order_body. munfold.
    destruct (orders w !! id) as [o|]; [|done].
    destruct (decide (provider o ≠ manual)); [done|].
    destruct (decide (status o ≠ "Pending Admin Approval")); [done|].
    cbn. route_cases; mail_cases transporter_sendMail; reflexivity.
  - unfold reject_deposit, reject_deposit_body. munfold.
    destruct (transactions w !! id) as [tx|]; [|done].
    destruct (decide (tx_type tx ≠ ty_deposit)); [done|].
    destruct (decide (tx_status tx = completed)); [done|].
    destruct (decide (tx_status tx = failed)); [done|].
    cbn. route_cases; mail_cases transporter_sendMail; reflexivity.
Qed.

End ApprovalFrame.

(** X9.  Whether the mail is delivered or not changes neither the answer of
    an admin's confirm or reject, of an order or of a deposit, nor what it
    stores: users, orders, transactions and notifications are the same. *)
Theorem admin_calls_mail_independent ToNumber mail1 mail2 id c w :
  same_answer_and_documents (order_call ToNumber mail1 id c w)
                            (order_call ToNumber mail2 id c w) ∧
  same_answer_and_documents (deposit_call mail1 id c w)
                            (deposit_call mail2 id c w).
Proof.
  unfold same_answer_and_documents. split.
  - destruct c as [notes|reason]; simpl.
    + unfold confirm_order, confirm_order_body. munfold.
      destruct (orders w !! id) as [o|]; [|done].
      destruct (decide (provider o ≠ manual)); [done|].
      destruct (decide (status o ≠ "Pending Admin Approval")); [done|].
      cbn. route_cases; mail_cases mail1; mail_cases mail2; done.
    + unfold reject_order, reject_order_body. munfold.
      destruct (orders w !! id) as [o|]; [|done].
      destruct (decide (provider o ≠ manual)); [done|].
      destruct (decide (status o ≠ "Pending Admin Approval")); [done|].
      cbn. route_cases; mail_cases mail1; mail_cases mail2; done.
  - destruct c as [notes|reason]; simpl.
    + unfold confirm_deposit, confirm_deposit_body. munfold.
      destruct (transactions w !! id) as [tx|]; [|done].
      destruct (decide (tx_type tx ≠ ty_deposit)); [done|].
      destruct (decide (tx_status tx = completed)); [done|].
      destruct (decide (tx_status tx = failed)); [done|].
      cbn. route_cases; mail_cases mail1; mail_cases mail2; done.
    + unfold reject_deposit, reject_deposit_body. munfold.
      destruct (transactions w !! id) as [tx|]; [|done].
      destruct (decide (tx_type tx ≠ ty_deposit)); [done|].
      destruct (decide (tx_status tx = completed)); [done|].
      destruct (decide (tx_status tx = failed)); [done|].
      cbn. route_cases; mail_cases mail1; mail_cases mail2; done.
Qed.

(** * Creating a manual order *)



(** Splits on the test of the unique index. *)
Ltac index_case :=
  match goal with
  | |- context [@decide (map_Forall ?P ?m) ?d] => destruct (@decide (map_Forall P m) d)
  end.

Section CreateOrder.
Variable ToNumber : string → option Z.
Variable userPrice : Service → Z.
Variable duplicate_key : Z → exn.
Variable transporter_sendMail : Mail → option exn.

(** What a creation that goes through leaves behind. *)
Lemma create_order_run oid tid uid service quantity cat w u sid svc :
  users w !! uid = Some u →
  find_service service (services cat) = Some (sid, svc) →
  let total := unit_price userPrice svc * (if decide (quantity = 0) then 1 else quantity) in
  let n := counter_next "orders" (counters cat) in
  map_Forall (λ _ o, orderNumber o ≠ Some n) (orders w) →
  create_order userPrice duplicate_key oid tid uid service quantity cat w
  = (Res 200 (message_body "Manual order created. Waiting for admin approval."),
     mkCatalog (services cat) (<["orders" := n]> (counters cat)),
     with_transactions
       (insert tid (mkTransaction uid ty_order total pending
                      (Some (manual_reference oid)) None (Some n)))
       (with_orders
          (insert oid (mkOrder uid sid None "Pending Admin Approval"
                         (Some (String_of_Z total)) "USD" None None manual None (Some n)))
          w)).
Proof.
  intros Hu Hsvc total n Hfree. unfold create_order. rewrite Hu, Hsvc. cbv zeta.
  fold n. by index_case.
Qed.



End CreateOrder.

(** * Numbering the deposits *)

Lemma number_below_refl a : number_below a a = true.
Proof. destruct a; simpl; [|done]. by apply bool_decide_eq_true_2. Qed.

Lemma number_below_trans a b c :
  number_below a b = true → number_below b c = true → number_below a c = true.
Proof.
  destruct a, b, c; simpl; try done.
  rewrite !bool_decide_eq_true. lia.
Qed.

Lemma number_below_total a b :
  number_below a b = false → number_below b a = true.
Proof.
  destruct a, b; simpl; try done.
  rewrite bool_decide_eq_false, bool_decide_eq_true. lia.
Qed.

(** The deposit that the sorted query returns: there is none when the
    collection has no deposit; otherwise it is a deposit of the collection
    and no deposit sorts above it. *)
Lemma last_deposit_spec txs :
  match last_deposit txs with
  | None => ∀ id t, txs !! id = Some t → tx_type t ≠ ty_deposit
  | Some b =>
      tx_type b = ty_deposit ∧ (∃ id, txs !! id = Some b) ∧
      ∀ id t, txs !! id = Some t → tx_type t = ty_deposit →
              number_below (tx_orderNumber t) (tx_orderNumber b) = true
  end.
Proof.
  unfold last_deposit.
  assert (∀ l : list (string * Transaction),
    match foldr (λ p best,
             if decide (tx_type p.2 = ty_deposit) then
               match best with
               | Some b =>
                   if number_below (tx_orderNumber b) (tx_orderNumber p.2)
                   then Some p.2 else Some b
               | None => Some p.2
               end
             else best) None l with
    | None => ∀ p, p ∈ l → tx_type p.2 ≠ ty_deposit
    | Some b =>
        tx_type b = ty_deposit ∧ (∃ id, (id, b) ∈ l) ∧
        ∀ p, p ∈ l → tx_type p.2 = ty_deposit →
             number_below (tx_orderNumber p.2) (tx_orderNumber b) = true
    end) as Hlist.
  { induction l as [|[id t] l IH]; simpl.
    - intros p Hp. by apply elem_of_nil in Hp.
    - destruct (decide (tx_type t = ty_deposit)) as [Hdep|Hother].
      + destruct (foldr _ None l) as [b|].
        * destruct IH as (Hb & [idb Hin] & Hmax).
          destruct (number_below (tx_orderNumber b) (tx_orderNumber t)) eqn:Hcmp.
          -- split; [done|]. split; [exists id; by left|].
             intros p Hp Hpd. apply elem_of_cons in Hp as [->|Hp]; simpl.
             ++ apply number_below_refl.
             ++ eapply number_below_trans; [by apply Hmax|done].
          -- split; [done|]. split; [exists idb; by right|].
             intros p Hp Hpd. apply elem_of_cons in Hp as [->|Hp]; simpl.
             ++ by apply number_below_total.
             ++ by apply Hmax.
        * split; [done|]. split; [exists id; by left|].
          intros p Hp Hpd. apply elem_of_cons in Hp as [->|Hp]; simpl.
          -- apply number_below_refl.
          -- by destruct (IH p Hp).
      + destruct (foldr _ None l) as [b|].
        * destruct IH as (Hb & [idb Hin] & Hmax).
          split; [done|]. split; [exists idb; by right|].
          intros p Hp Hpd. apply elem_of_cons in Hp as [->|Hp]; [done|by apply Hmax].
        * intros p Hp. apply elem_of_cons in Hp as [->|Hp]; [done|by apply IH]. }
  specialize (Hlist (map_to_list txs)).
  destruct (foldr _ None (map_to_list txs)) as [b|].
  - destruct Hlist as (Hb & [idb Hin] & Hmax). split; [done|]. split.
    + exists idb. by apply elem_of_map_to_list.
    + intros id t Hlookup Hdep. apply (Hmax (id, t)); [|done].
      by apply elem_of_map_to_list.
  - intros id t Hlookup. apply (Hlist (id, t)). by apply elem_of_map_to_list.
Qed.

(** The number the route takes is positive and above every number in use,
    when the deposits are numbered. *)
Lemma next_deposit_number_above txs :
  deposits_numbered txs →
  0 < next_deposit_number txs ∧
  ∀ id t n, txs !! id = Some t → tx_type t = ty_deposit →
            tx_orderNumber t = Some n → n < next_deposit_number txs.
Proof.
  intros [Hpos _]. unfold next_deposit_number.
  pose proof (last_deposit_spec txs) as Hlast.
  destruct (last_deposit txs) as [b|].
  - destruct Hlast as (Hb & [idb Hlookup] & Hmax).
    destruct (Hpos _ _ Hlookup Hb) as (m & Hm & Hm0). rewrite Hm in *.
    destruct (decide (m = 0)); [lia|]. split; [lia|].
    intros id t k Ht Hdep Hk. specialize (Hmax id t Ht Hdep).
    rewrite Hk in Hmax. simpl in Hmax. apply bool_decide_eq_true in Hmax. lia.
  - split; [lia|]. intros id t k Ht Hdep. by destruct (Hlast id t Ht).
Qed.

(** The hook leaves the number that the route gives alone. *)
Lemma pre_save_numbered txs uid amt ref :
  pre_save txs (mkTransaction uid ty_deposit amt pending (Some ref) None
                  (Some (next_deposit_number txs)))
  = mkTransaction uid ty_deposit amt pending (Some ref) None
      (Some (next_deposit_number txs)).
Proof.
  unfold pre_save. cbn.
  destruct (decide (_ ∨ _)) as [[?|Hzero]|_]; [done| |done].
  unfold next_deposit_number in *.
  destruct (last_deposit txs) as [last|]; [|done].
  destruct (tx_orderNumber last) as [m|]; [|done].
  by destruct (decide (m = 0)).
Qed.

(** What the creation of a deposit answers and stores. *)
Lemma create_deposit_run telegram new_id uid amt ref w :
  create_deposit telegram new_id uid amt ref w
  = (Res 200 (message_body
       "Deposit request created. Please send the funds and wait for admin confirmation."),
     (sendTelegramAlert telegram
        (with_transactions
           (insert new_id (mkTransaction uid ty_deposit amt pending (Some ref) None
                             (Some (next_deposit_number (transactions w)))))
           w)).2).
Proof.
  unfold create_deposit, create_deposit_body, Transaction_create, sendTelegramAlert.
  munfold. cbn. rewrite pre_save_numbered. by destruct telegram.
Qed.

Lemma create_deposit_world telegram new_id uid amt ref w :
  let w' := (create_deposit telegram new_id uid amt ref w).2 in
  transactions w'
  = <[new_id := mkTransaction uid ty_deposit amt pending (Some ref) None
                  (Some (next_deposit_number (transactions w)))]> (transactions w) ∧
  users w' = users w ∧ orders w' = orders w.
Proof.
  cbv zeta. rewrite create_deposit_run. unfold sendTelegramAlert. munfold.
  by destruct telegram.
Qed.

Section CreateDeposit.
Variable telegram : TelegramOutcome.

(** X12.  A deposit created through the route gets a positive number above
    the number of every deposit there is, the [pre('save')] hook leaves that
    number alone, and so the deposits stay numbered apart.  No balance
    changes. *)
Theorem create_deposit_numbered new_id uid amt ref w :
  deposits_numbered (transactions w) →
  let w' := (create_deposit telegram new_id uid amt ref w).2 in
  transactions w'
  = <[new_id := mkTransaction uid ty_deposit amt pending (Some ref) None
                  (Some (next_deposit_number (transactions w)))]> (transactions w) ∧
  (∀ id t n, transactions w !! id = Some t → tx_type t = ty_deposit →
             tx_orderNumber t = Some n → n < next_deposit_number (transactions w)) ∧
  deposits_numbered (transactions w') ∧
  users w' = users w.
Proof.
  intros Hnumbered. cbv zeta.
  destruct (next_deposit_number_above _ Hnumbered) as [Hpos Habove].
  destruct (create_deposit_world telegram new_id uid amt ref w) as (Htx & Husers & _).
  rewrite Htx, Husers.
  set (n := next_deposit_number (transactions w)) in *.
  split; [done|]. split; [done|]. split; [|done].
  destruct Hnumbered as [Hpos_old Hdistinct]. split.
  - intros id t Hlookup Hdep.
    apply lookup_insert_Some in Hlookup as [[<- <-]|[Hne Hlookup]].
    + by exists n.
    + by eapply Hpos_old.
  - intros id1 id2 t1 t2 H1 H2 Hd1 Hd2 Heq.
    apply lookup_insert_Some in H1 as [[<- <-]|[Hne1 H1]];
      apply lookup_insert_Some in H2 as [[<- <-]|[Hne2 H2]]; [done| | |].
    + simpl in Heq. symmetry in Heq. pose proof (Habove _ _ _ H2 Hd2 Heq). lia.
    + simpl in Heq. pose proof (Habove _ _ _ H1 Hd1 Heq). lia.
    + by eapply Hdistinct.
Qed.


End CreateDeposit.
(** * The admin's routes on a user *)

(** What an adjustment that goes through stores. *)
Lemma adjust_balance_run new_id uid amt a reason w u :
  js_truthy amt = true →
  js_number amt = Some a →
  users w !! uid = Some u →
  adjust_balance new_id uid amt reason w
  = (Res 200 (message_body "Balance adjusted"),
     with_transactions
       (insert new_id (mkTransaction uid ty_adjustment (Z.abs a) completed
                         (Some ("admin-adjust:" +:+ or_else reason "manual")) None None))
       (with_users (insert uid (set_balance (balance u + a) u)) w)).
Proof.
  intros Htruthy Hnumber Hu.
  unfold adjust_balance, adjust_balance_body, Transaction_create. munfold.
  rewrite Htruthy, Hnumber. cbn. by rewrite Hu.
Qed.


(** X14.  An adjustment is refused, and changes nothing, exactly when the
    amount of the body is falsy, or is no number, or the user does not
    exist.  What decides is the value as sent: the number 0 is refused, but
    a truthy value that converts to 0, such as the string "0", goes through,
    and records a completed adjustment. *)
Theorem adjust_balance_outcome new_id uid amt reason w :
  let '(r, w') := adjust_balance new_id uid amt reason w in
  if decide (js_truthy amt = false ∨ js_number amt = None ∨ users w !! uid = None)
  then (∃ code msg, r = Res code (error_body msg)) ∧ w' = w
  else r = Res 200 (message_body "Balance adjusted") ∧
       ∃ t, transactions w' !! new_id = Some t ∧ tx_type t = ty_adjustment ∧
            tx_status t = completed ∧ Some (amount t) = Z.abs <$> js_number amt.
Proof.
  destruct (decide (js_truthy amt = false ∨ js_number amt = None ∨ users w !! uid = None))
    as [Hcase|Hcase].
  - unfold adjust_balance, adjust_balance_body. munfold.
    destruct (js_truthy amt); cbn; [|by split; [eexists _, _|]].
    destruct (js_number amt); cbn; [|by split; [eexists _, _|]].
    destruct (users w !! uid); cbn; [|by split; [eexists _, _|]].
    by destruct Hcase as [?|[?|?]].
  - destruct (js_truthy amt) eqn:Htruthy; [|destruct Hcase; by left].
    destruct (js_number amt) as [a|] eqn:Hnumber; [|destruct Hcase; right; by left].
    destruct (users w !! uid) as [u|] eqn:Hu; [|destruct Hcase; right; by right].
    rewrite (adjust_balance_run new_id uid amt a reason w u Htruthy Hnumber Hu).
    split; [done|]. eexists. cbn. by rewrite lookup_insert_eq.
Qed.

(** X15.  Deleting a user removes the user together with every order, every
    transaction and every notification of that user, and leaves the
    documents of all the others as they were; deleting a user that does not
    exist answers 404 and changes nothing. *)
Theorem delete_user_cascades id w :
  let '(r, w') := delete_user id w in
  (users w !! id = None → r = Res 404 (error_body "User not found") ∧ w' = w) ∧
  (is_Some (users w !! id) →
   users w' !! id = None ∧
   (∀ uid, uid ≠ id → users w' !! uid = users w !! uid) ∧
   (∀ oid o, orders w' !! oid = Some o ↔ orders w !! oid = Some o ∧ userId o ≠ id) ∧
   (∀ tid t, transactions w' !! tid = Some t
             ↔ transactions w !! tid = Some t ∧ tx_userId t ≠ id) ∧
   (∀ n, n ∈ notifications w' ↔ n ∈ notifications w ∧ n_userId n ≠ id)).
Proof.
  unfold delete_user, delete_user_body. munfold.
  destruct (users w !! id) as [u|] eqn:Hu; cbn.
  - split; [done|]. intros _.
    split; [apply lookup_delete_eq|].
    split; [intros uid Hne; by apply lookup_delete_ne|].
    split; [intros oid o; by rewrite map_lookup_filter_Some|].
    split; [intros tid t; by rewrite map_lookup_filter_Some|].
    intros n. by rewrite list_elem_of_filter, (comm and).
  - split; [done|]. by intros [? ?].
Qed.
(** * Invariants of the store *)

Lemma apply_snapshot_admin_keeps st o :
  userId (apply_snapshot_admin st o) = userId o ∧
  orderNumber (apply_snapshot_admin st o) = orderNumber o.
Proof.
  unfold apply_snapshot_admin, assign_if_truthy, assign_if.
  repeat case_match; done.
Qed.

Lemma apply_snapshot_refresh_owner to_string st o :
  userId (apply_snapshot_refresh to_string st o) = userId o ∧
  orderNumber (apply_snapshot_refresh to_string st o) = orderNumber o.
Proof.
  unfold apply_snapshot_refresh, assign_if_truthy, assign_if.
  repeat case_match; done.
Qed.

Lemma keeps_documents_refl w : keeps_documents w w.
Proof. split; [done|]. split; intros id d Hd; by exists d. Qed.

(** Reads the lookups of an updated collection back into the old one. *)
Ltac old_lookups :=
  repeat match goal with
  | H : <[_:=_]> _ !! _ = Some _ |- _ =>
      apply lookup_insert_Some in H as [[<- <-]|[? H]]
  end.

(** The store after an operation is the store before with documents that
    were there put back, changed in other fields. *)
Ltac keeps_solve :=
  split; [|split];
  [ intros ? ?; cbn; rewrite ?lookup_insert_is_Some'; auto
  | intros ? ? Hk; cbn in Hk; old_lookups;
    (eexists; split; [eassumption|]);
    rewrite ?(proj1 (apply_snapshot_admin_keeps _ _)),
            ?(proj2 (apply_snapshot_admin_keeps _ _)),
            ?(proj1 (apply_snapshot_refresh_owner _ _ _)),
            ?(proj2 (apply_snapshot_refresh_owner _ _ _)); done
  | intros ? ? Hk; cbn in Hk; old_lookups;
    (eexists; split; [eassumption|]); done ].

(** The operations that update never create or delete a user, an order or a
    transaction, and never change the owner or the number of an order, or
    the owner, the type or the number of a transaction. *)
Lemma update_step_keeps w w' : update_step w w' → keeps_documents w w'.
Proof.
  intros Hstep.
  destruct Hstep
    as [ToNumber mail id notes w
       |mail id reason w
       |mail id w
       |mail id reason w
       |reply mail w
       |to_string reply mail uid id w
       |reply id w].
  - (* confirm of an order *)
    unfold confirm_order, confirm_order_body. munfold.
    destruct (orders w !! id) as [o|] eqn:Ho; [|apply keeps_documents_refl].
    destruct (decide (provider o ≠ manual)); [apply keeps_documents_refl|].
    destruct (decide (status o ≠ "Pending Admin Approval"));
      [apply keeps_documents_refl|].
    cbn.
    destruct (find_reference (manual_reference id) (transactions w))
      as [[tid0 t0]|] eqn:Hfind;
      [apply find_reference_Some in Hfind as [Ht0 _]|]; cbn;
      route_cases; mail_cases mail; keeps_solve.
  - (* reject of an order *)
    unfold reject_order, reject_order_body. munfold.
    destruct (orders w !! id) as [o|] eqn:Ho; [|apply keeps_documents_refl].
    destruct (decide (provider o ≠ manual)); [apply keeps_documents_refl|].
    destruct (decide (status o ≠ "Pending Admin Approval"));
      [apply keeps_documents_refl|].
    cbn.
    destruct (find_reference (manual_reference id) (transactions w))
      as [[tid0 t0]|] eqn:Hfind;
      [apply find_reference_Some in Hfind as [Ht0 _]|]; cbn;
      route_cases; mail_cases mail; keeps_solve.
  - (* confirm of a deposit *)
    unfold confirm_deposit, confirm_deposit_body. munfold.
    destruct (transactions w !! id) as [tx|] eqn:Htx; [|apply keeps_documents_refl].
    destruct (decide (tx_type tx ≠ ty_deposit)); [apply keeps_documents_refl|].
    destruct (decide (tx_status tx = completed)); [apply keeps_documents_refl|].
    destruct (decide (tx_status tx = failed)); [apply keeps_documents_refl|].
    cbn. route_cases; mail_cases mail; keeps_solve.
  - (* reject of a deposit *)
    unfold reject_deposit, reject_deposit_body. munfold.
    destruct (transactions w !! id) as [tx|] eqn:Htx; [|apply keeps_documents_refl].
    destruct (decide (tx_type tx ≠ ty_deposit)); [apply keeps_documents_refl|].
    destruct (decide (tx_status tx = completed)); [apply keeps_documents_refl|].
    destruct (decide (tx_status tx = failed)); [apply keeps_documents_refl|].
    cbn. route_cases; mail_cases mail; keeps_solve.
  - (* the sweep *)
    destruct (orderSync_collections reply mail w) as (Hu & Ht & Ho & _).
    split; [|split].
    + intros uid. by rewrite Hu.
    + intros k o'. rewrite Ho, lookup_fmap. intros Hk.
      destruct (orders w !! k) as [o|] eqn:Hlookup; simplify_eq/=.
      exists o. split; [done|].
      unfold sweep_order. destruct (decide _); [|done].
      destruct (sync_update reply o) as [o'|] eqn:Hup; simpl; [|done].
      apply sync_update_Some in Hup as (? & st & s & _ & _ & _ & _ & _ & ->).
      destruct (apply_snapshot_sync_keeps s st o) as (? & _ & _ & _ & ? & _). done.
    + intros k t'. rewrite Ht. intros Hk. by exists t'.
  - (* the user's refresh *)
    unfold refresh_status, refresh_status_body. munfold.
    destruct (orders w !! id) as [o|] eqn:Ho; [|apply keeps_documents_refl].
    destruct (decide (userId o = uid)); [|apply keeps_documents_refl].
    destruct (decide (provider o ≠ secsers)); [apply keeps_documents_refl|].
    destruct (providerOrder_truthy o) as [po|]; [|apply keeps_documents_refl].
    destruct (reply po) as [err|st]; [apply keeps_documents_refl|].
    cbn. destruct (status_changed st (status o)); cbn; [|keeps_solve].
    destruct (users w !! uid) as [u|]; cbn; [|keeps_solve].
    destruct (decide (email u = "")); cbn; [keeps_solve|].
    mail_cases mail; keeps_solve.
  - (* the admin's refresh *)
    unfold admin_refresh, admin_refresh_body. munfold.
    destruct (orders w !! id) as [o|] eqn:Ho; [|apply keeps_documents_refl].
    destruct (decide (provider o ≠ secsers)); [apply keeps_documents_refl|].
    destruct (providerOrder_truthy o) as [po|]; [|apply keeps_documents_refl].
    destruct (reply po) as [err|st]; cbn; keeps_solve.
Qed.

(** What the routes that create or delete leave behind. *)
Lemma create_order_cases userPrice duplicate_key oid tid uid service quantity cat w :
  (create_order userPrice duplicate_key oid tid uid service quantity cat w).2 = w ∨
  ∃ u sid total n,
    users w !! uid = Some u ∧
    map_Forall (λ _ o, orderNumber o ≠ Some n) (orders w) ∧
    (create_order userPrice duplicate_key oid tid uid service quantity cat w).2
    = with_transactions
        (insert tid (mkTransaction uid ty_order total pending
                       (Some (manual_reference oid)) None (Some n)))
        (with_orders
           (insert oid (mkOrder uid sid None "Pending Admin Approval"
                          (Some (String_of_Z total)) "USD" None None manual None
                          (Some n)))
           w).
Proof.
  destruct (users w !! uid) as [u|] eqn:Hu;
    [|left; unfold create_order; by rewrite Hu].
  destruct (find_service service (services cat)) as [[sid svc]|] eqn:Hsvc;
    [|left; unfold create_order; by rewrite Hu, Hsvc].
  destruct (decide (map_Forall (λ _ o, orderNumber o
                                       ≠ Some (counter_next "orders" (counters cat)))
                               (orders w))) as [Hfree|Hused].
  - right. eexists u, sid, _, _. split; [done|]. split; [exact Hfree|].
    by rewrite (create_order_run userPrice duplicate_key oid tid uid service quantity
                  cat w u sid svc Hu Hsvc Hfree).
  - left. unfold create_order. rewrite Hu, Hsvc. cbv zeta. by index_case.
Qed.

Lemma adjust_balance_cases new_id uid amt reason w :
  (adjust_balance new_id uid amt reason w).2 = w ∨
  ∃ a u, users w !! uid = Some u ∧
         (adjust_balance new_id uid amt reason w).2
         = with_transactions
             (insert new_id (mkTransaction uid ty_adjustment (Z.abs a) completed
                               (Some ("admin-adjust:" +:+ or_else reason "manual"))
                               None None))
             (with_users (insert uid (set_balance (balance u + a) u)) w).
Proof.
  destruct (js_truthy amt) eqn:Htruthy.
  - destruct (js_number amt) as [a|] eqn:Hnumber.
    + destruct (users w !! uid) as [u|] eqn:Hu.
      * right. exists a, u. split; [done|].
        by rewrite (adjust_balance_run new_id uid amt a reason w u Htruthy Hnumber Hu).
      * left. unfold adjust_balance, adjust_balance_body. munfold.
        rewrite Htruthy, Hnumber. cbn. by rewrite Hu.
    + left. unfold adjust_balance, adjust_balance_body. munfold.
      by rewrite Htruthy, Hnumber.
  - left. unfold adjust_balance, adjust_balance_body. munfold. by rewrite Htruthy.
Qed.

Lemma delete_user_cases id w :
  (delete_user id w).2 = w ∨
  (delete_user id w).2
  = with_users (delete id)
      (with_notifications (filter (λ n, n_userId n ≠ id))
         (with_orders (filter (λ p, userId p.2 ≠ id))
            (with_transactions (filter (λ p, tx_userId p.2 ≠ id)) w))).
Proof.
  unfold delete_user, delete_user_body. munfold.
  destruct (users w !! id); [by right|by left].
Qed.

(** A deposit with the number the route takes joins numbered deposits. *)
Lemma insert_deposit_numbered txs id t :
  deposits_numbered txs →
  tx_orderNumber t = Some (next_deposit_number txs) →
  deposits_numbered (<[id := t]> txs).
Proof.
  intros Hnumbered Hn.
  destruct (next_deposit_number_above _ Hnumbered) as [Hpos Habove].
  destruct Hnumbered as [Hpos_old Hdistinct]. split.
  - intros id' t' Hlookup Hdep.
    apply lookup_insert_Some in Hlookup as [[<- <-]|[Hne Hlookup]].
    + by eexists.
    + by eapply Hpos_old.
  - intros id1 id2 t1 t2 H1 H2 Hd1 Hd2 Heq.
    apply lookup_insert_Some in H1 as [[<- <-]|[Hne1 H1]];
      apply lookup_insert_Some in H2 as [[<- <-]|[Hne2 H2]]; [done| | |].
    + rewrite Hn in Heq. symmetry in Heq. pose proof (Habove _ _ _ H2 Hd2 Heq). lia.
    + rewrite Hn in Heq. pose proof (Habove _ _ _ H1 Hd1 Heq). lia.
    + by eapply Hdistinct.
Qed.

(** A transaction that is no deposit changes nothing in their numbering. *)
Lemma insert_other_numbered txs id t :
  deposits_numbered txs →
  tx_type t ≠ ty_deposit →
  deposits_numbered (<[id := t]> txs).
Proof.
  intros [Hpos Hdistinct] Hother. split.
  - intros id' t' Hlookup Hdep.
    apply lookup_insert_Some in Hlookup as [[<- <-]|[Hne Hlookup]]; [done|].
    by eapply Hpos.
  - intros id1 id2 t1 t2 H1 H2 Hd1 Hd2 Heq.
    apply lookup_insert_Some in H1 as [[<- <-]|[Hne1 H1]]; [done|].
    apply lookup_insert_Some in H2 as [[<- <-]|[Hne2 H2]]; [done|].
    by eapply Hdistinct.
Qed.

Lemma owners_exist_step w w' :
  step w w' → owners_exist w → owners_exist w'.
Proof.
  intros Hstep [Horders Htxs]. destruct Hstep
    as [w w' Hupdate
       |userPrice duplicate_key oid tid uid svc quantity cat w
       |telegram new_id uid amt ref w Huser
       |new_id uid amt reason w
       |id w].
  - apply update_step_keeps in Hupdate as (Hku & Hko & Hkt). split.
    + intros id o' Ho'. destruct (Hko _ _ Ho') as (o & Ho & -> & _).
      apply Hku. by eapply Horders.
    + intros id t' Ht'. destruct (Hkt _ _ Ht') as (t & Ht & -> & _).
      apply Hku. by eapply Htxs.
  - destruct (create_order_cases userPrice duplicate_key oid tid uid svc
                quantity cat w) as [->|(u & sid & total & n & Hu & _ & ->)]; [done|].
    split; intros k d Hk; cbn in Hk; old_lookups; cbn;
      first [by eauto | by eapply Horders | by eapply Htxs].
  - destruct (create_deposit_world telegram new_id uid amt ref w) as (Ht & Hu & Ho).
    split.
    + intros k d. rewrite Ho, Hu. apply Horders.
    + intros k d. rewrite Ht, Hu. intros Hk. old_lookups; [done|by eapply Htxs].
  - destruct (adjust_balance_cases new_id uid amt reason w)
      as [->|(a & u & Hu & ->)]; [done|].
    split; intros k d Hk; cbn in Hk; old_lookups; cbn;
      rewrite lookup_insert_is_Some';
      first [by left | right; by eapply Horders | right; by eapply Htxs].
  - destruct (delete_user_cases id w) as [->| ->]; [done|].
    split; intros k d Hk; cbn in Hk;
      apply map_lookup_filter_Some in Hk as [Hk Hother]; simpl in Hother;
      cbn; rewrite lookup_delete_ne by done; [by eapply Horders|by eapply Htxs].
Qed.

Lemma orders_numbered_step w w' :
  step w w' → orders_numbered (orders w) → orders_numbered (orders w').
Proof.
  intros Hstep Hnumbered. destruct Hstep
    as [w w' Hupdate
       |userPrice duplicate_key oid tid uid svc quantity cat w
       |telegram new_id uid amt ref w Huser
       |new_id uid amt reason w
       |id w].
  - apply update_step_keeps in Hupdate as (_ & Hko & _).
    intros id1 id2 o1' o2' n H1 H2 Hn1 Hn2.
    destruct (Hko _ _ H1) as (o1 & Ho1 & _ & Hsame1).
    destruct (Hko _ _ H2) as (o2 & Ho2 & _ & Hsame2).
    rewrite Hsame1 in Hn1. rewrite Hsame2 in Hn2. by eapply Hnumbered.
  - destruct (create_order_cases userPrice duplicate_key oid tid uid svc
                quantity cat w) as [->|(u & sid & total & n & _ & Hfree & ->)]; [done|].
    cbn. intros id1 id2 o1 o2 m H1 H2 Hn1 Hn2.
    apply lookup_insert_Some in H1 as [[<- <-]|[Hne1 H1]];
      apply lookup_insert_Some in H2 as [[<- <-]|[Hne2 H2]]; [done| | |].
    + cbn in Hn1. simplify_eq. by destruct (Hfree _ _ H2).
    + cbn in Hn2. simplify_eq. by destruct (Hfree _ _ H1).
    + by eapply Hnumbered.
  - destruct (create_deposit_world telegram new_id uid amt ref w) as (_ & _ & Ho).
    by rewrite Ho.
  - by destruct (adjust_balance_cases new_id uid amt reason w)
      as [->|(a & u & Hu & ->)].
  - destruct (delete_user_cases id w) as [->| ->]; [done|].
    cbn. intros id1 id2 o1 o2 m H1 H2.
    apply map_lookup_filter_Some in H1 as [H1 _].
    apply map_lookup_filter_Some in H2 as [H2 _]. by eapply Hnumbered.
Qed.

Lemma deposits_numbered_step w w' :
  step w w' → deposits_numbered (transactions w) → deposits_numbered (transactions w').
Proof.
  intros Hstep Hnumbered. destruct Hstep
    as [w w' Hupdate
       |userPrice duplicate_key oid tid uid svc quantity cat w
       |telegram new_id uid amt ref w Huser
       |new_id uid amt reason w
       |id w].
  - apply update_step_keeps in Hupdate as (_ & _ & Hkt).
    destruct Hnumbered as [Hpos Hdistinct]. split.
    + intros id t' Ht' Hdep. destruct (Hkt _ _ Ht') as (t & Ht & _ & Htype & ->).
      rewrite Htype in Hdep. by eapply Hpos.
    + intros id1 id2 t1' t2' H1 H2 Hd1 Hd2.
      destruct (Hkt _ _ H1) as (t1 & Ht1 & _ & Htype1 & ->).
      destruct (Hkt _ _ H2) as (t2 & Ht2 & _ & Htype2 & ->).
      rewrite Htype1 in Hd1. rewrite Htype2 in Hd2. by eapply Hdistinct.
  - destruct (create_order_cases userPrice duplicate_key oid tid uid svc
                quantity cat w) as [->|(u & sid & total & n & _ & _ & ->)]; [done|].
    cbn. by apply insert_other_numbered.
  - destruct (create_deposit_world telegram new_id uid amt ref w) as (-> & _ & _).
    by apply insert_deposit_numbered.
  - destruct (adjust_balance_cases new_id uid amt reason w)
      as [->|(a & u & Hu & ->)]; [done|].
    cbn. by apply insert_other_numbered.
  - destruct (delete_user_cases id w) as [->| ->]; [done|].
    cbn. destruct Hnumbered as [Hpos Hdistinct]. split.
    + intros k t Hk. apply map_lookup_filter_Some in Hk as [Hk _]. by eapply Hpos.
    + intros id1 id2 t1 t2 H1 H2.
      apply map_lookup_filter_Some in H1 as [H1 _].
      apply map_lookup_filter_Some in H2 as [H2 _]. by eapply Hdistinct.
Qed.

(** X16.  In every store reached by calls of the routes and runs of the
    sweep from a store where every order and every transaction has its user,
    every order and every transaction has its user: the routes create
    documents for users that exist, keep the owner of what they update, and
    the deletion of a user takes the user's orders and transactions along. *)
Theorem owners_exist_invariant w w' :
  owners_exist w → rtc step w w' → owners_exist w'.
Proof.
  intros Hinv Hsteps. induction Hsteps as [|w1 w2 w3 Hstep _ IH]; [done|].
  apply IH. by eapply owners_exist_step.
Qed.

(** X17.  No two orders ever share a number: in every store reached by calls
    of the routes and runs of the sweep from a store where the orders are
    numbered apart, they are.  The creation of an order is the only
    operation that gives a number, the unique index refuses a number in use,
    and no update changes the number of an order. *)
Theorem orders_numbered_invariant w w' :
  orders_numbered (orders w) → rtc step w w' → orders_numbered (orders w').
Proof.
  intros Hinv Hsteps. induction Hsteps as [|w1 w2 w3 Hstep _ IH]; [done|].
  apply IH. by eapply orders_numbered_step.
Qed.

(** X18.  Deposits stay numbered: in every store reached by calls of the
    routes and runs of the sweep from a store where every deposit has a
    positive number and no two deposits share one, that is so.  A new
    deposit gets the number after the highest, the confirm and the reject
    keep the number, and the other routes create no deposit. *)
Theorem deposits_numbered_invariant w w' :
  deposits_numbered (transactions w) → rtc step w w' →
  deposits_numbered (transactions w').
Proof.
  intros Hinv Hsteps. induction Hsteps as [|w1 w2 w3 Hstep _ IH]; [done|].
  apply IH. by eapply deposits_numbered_step.
Qed.
(** * The slug of a saved document *)

Lemma Z_to_int_normal n :
  Z.to_int n ≠ Decimal.Pos Decimal.Nil ∧ Z.to_int n ≠ Decimal.Neg Decimal.Nil.
Proof.
  rewrite <- (DecimalZ.of_to n), DecimalZ.to_of.
  destruct (Z.to_int n) as [d|d]; simpl.
  - split; [|done]. intros [= H]. by apply DecimalFacts.unorm_nonnil in H.
  - destruct (Decimal.nzhead d) eqn:Hd; done.
Qed.

Lemma String_of_Z_inj a b : String_of_Z a = String_of_Z b → a = b.
Proof.
  unfold String_of_Z. intros Heq.
  destruct (Z_to_int_normal a) as [Ha1 Ha2], (Z_to_int_normal b) as [Hb1 Hb2].
  apply DecimalZ.to_int_inj.
  pose proof (NilZero.isi _ Ha1 Ha2) as Hia.
  pose proof (NilZero.isi _ Hb1 Hb2) as Hib.
  rewrite Heq in Hia. congruence.
Qed.

Lemma slug_candidate_inj baseSlug i j :
  slug_candidate baseSlug i = slug_candidate baseSlug j → i = j.
Proof.
  unfold slug_candidate. intros Heq.
  apply String.app_inj in Heq. apply String.app_inj in Heq.
  by apply String_of_Z_inj.
Qed.

Lemma slug_candidate_longer baseSlug i : slug_candidate baseSlug i ≠ baseSlug.
Proof.
  unfold slug_candidate. induction baseSlug as [|c rest IH]; simpl; [done|].
  intros [= Heq]. by apply IH.
Qed.

(** A slug that is no candidate any more makes no difference to the turns
    that follow. *)
Lemma slug_loop_remove fuel used baseSlug slug counter x :
  slug ≠ x →
  (∀ j, counter ≤ j → slug_candidate baseSlug j ≠ x) →
  slug_loop fuel (used ∖ {[x]}) baseSlug slug counter
  = slug_loop fuel used baseSlug slug counter.
Proof.
  revert slug counter. induction fuel as [|fuel IH]; intros slug counter Hslug Hnext;
    [done|].
  simpl. rewrite (IH (slug_candidate baseSlug counter) (counter + 1));
    [|apply Hnext; lia|intros j Hj; apply Hnext; lia].
  destruct (decide (slug ∈ used)) as [Hin|Hout].
  - rewrite decide_True; [done|].
    apply elem_of_difference. split; [done|]. by rewrite elem_of_singleton.
  - rewrite decide_False; [done|]. by intros [? _]%elem_of_difference.
Qed.

Lemma slug_loop_ends fuel used baseSlug slug counter :
  (∀ j, counter ≤ j → slug_candidate baseSlug j ≠ slug) →
  (size used < fuel)%nat →
  is_Some (slug_loop fuel used baseSlug slug counter).
Proof.
  revert used slug counter.
  induction fuel as [|fuel IH]; intros used slug counter Hlater Hsize; [lia|].
  simpl. destruct (decide (slug ∈ used)) as [Hin|Hout]; [|by eexists].
  rewrite <- (slug_loop_remove fuel used baseSlug _ (counter + 1) slug);
    [|apply Hlater; lia|intros j Hj; apply Hlater; lia].
  apply IH.
  - intros j Hj Heq. apply slug_candidate_inj in Heq. lia.
  - assert (size (used ∖ {[slug]}) = (size used - 1)%nat) as ->.
    { rewrite size_difference by (by apply singleton_subseteq_l).
      by rewrite size_singleton. }
    assert (size used ≠ 0%nat) as Hne.
    { intros Hzero. apply size_empty_inv in Hzero. rewrite Hzero in Hin.
      by apply elem_of_empty in Hin. }
    lia.
Qed.

Lemma slug_loop_first_free fuel used baseSlug slug counter s :
  slug_loop fuel used baseSlug slug counter = Some s →
  (s ∉ used) ∧
  (s = slug ∨
   slug ∈ used ∧
   ∃ i, counter ≤ i ∧ s = slug_candidate baseSlug i ∧
        ∀ j, counter ≤ j < i → slug_candidate baseSlug j ∈ used).
Proof.
  revert slug counter. induction fuel as [|fuel IH]; intros slug counter Hrun; [done|].
  simpl in Hrun. destruct (decide (slug ∈ used)) as [Hin|Hout].
  - apply IH in Hrun as [Hfree [->|(Hc & i & Hi & -> & Hbelow)]].
    + split; [done|]. right. split; [done|]. exists counter.
      split; [lia|]. split; [done|]. intros j Hj. lia.
    + split; [done|]. right. split; [done|]. exists i.
      split; [lia|]. split; [done|]. intros j Hj.
      destruct (decide (j = counter)) as [->|Hne]; [done|]. apply Hbelow. lia.
  - simplify_eq. split; [done|by left].
Qed.

(** X20.  The slug a document is saved with is one that no document of the
    collection has, and it is the first free one of [base], [base-1],
    [base-2], ...: the search ends within one turn more than there are slugs
    in the collection. *)
Theorem unique_slug_fresh fuel used baseSlug :
  (size used < fuel)%nat →
  ∃ slug, unique_slug fuel used baseSlug = Some slug ∧
          (slug ∉ used) ∧
          (slug = baseSlug ∨
           baseSlug ∈ used ∧
           ∃ i, 1 ≤ i ∧ slug = slug_candidate baseSlug i ∧
                ∀ j, 1 ≤ j < i → slug_candidate baseSlug j ∈ used).
Proof.
  intros Hfuel. unfold unique_slug.
  destruct (slug_loop_ends fuel used baseSlug baseSlug 1) as [slug Hrun];
    [intros j _; apply slug_candidate_longer|done|].
  exists slug. split; [done|]. by apply slug_loop_first_free in Hrun.
Qed.
(** * The further properties on scenarios *)

(** X5 on a scenario: the provider cannot be reached while the user
    refreshes order o2. *)
Lemma refresh_status_provider_failure_scenario :
  refresh_status canonical_numeral reply_fails mail_delivers "u1" "o2" refresh_world
  = (Next "Request failed with status code 502", refresh_world).
Proof.
  apply (refresh_status_provider_failure canonical_numeral reply_fails mail_delivers
           "u1" "o2" refresh_world (provider_order 999 "In progress" 100) 999
           "Request failed with status code 502").
  - vm_compute; reflexivity.
  - reflexivity.
  - reflexivity.
  - vm_compute; reflexivity.
  - reflexivity.
Defined.


(** X12 on a scenario: beside the deposit number 3, a new deposit is
    number 4. *)
Lemma create_deposit_numbered_scenario :
  let w' := (create_deposit telegram_sent "d2" "u1" 25 "whish-801" (deposit_world 0)).2 in
  transactions w'
  = <["d2" := mkTransaction "u1" ty_deposit 25 pending (Some "whish-801") None
                (Some (next_deposit_number (transactions (deposit_world 0))))]>
      (transactions (deposit_world 0)) ∧
  (∀ id t n, transactions (deposit_world 0) !! id = Some t → tx_type t = ty_deposit →
             tx_orderNumber t = Some n →
             n < next_deposit_number (transactions (deposit_world 0))) ∧
  deposits_numbered (transactions w') ∧
  users w' = users (deposit_world 0).
Proof.
  apply (create_deposit_numbered telegram_sent "d2" "u1" 25 "whish-801" (deposit_world 0)).
  split.
  - intros id t Hlookup _. simpl in Hlookup.
    apply lookup_singleton_Some in Hlookup as [_ <-]. exists 3. split; [reflexivity|lia].
  - intros id1 id2 t1 t2 H1 H2 _ _ _. simpl in H1, H2.
    apply lookup_singleton_Some in H1 as [<- _].
    apply lookup_singleton_Some in H2 as [<- _]. reflexivity.
Defined.


(** X16 on a scenario: the order of u1 is confirmed, then u1 is deleted. *)
Lemma owners_exist_invariant_scenario :
  owners_exist
    (delete_user "u1"
       (confirm_order decimal_ToNumber mail_delivers "o1" None (manual_world 50)).2).2.
Proof.
  apply (owners_exist_invariant (manual_world 50)).
  - split; intros id d Hlookup; simpl in Hlookup;
      apply lookup_singleton_Some in Hlookup as [_ <-];
      exists (alice 50); vm_compute; reflexivity.
  - apply (rtc_l _ _ (confirm_order decimal_ToNumber mail_delivers "o1" None
                        (manual_world 50)).2);
      [apply step_update, step_confirm_order|].
    apply rtc_once, step_delete_user.
Defined.

(** X17 on a scenario: order o1 has the number 7 and the counter is at 6;
    a first creation is refused by the index, a second one gets 8. *)
Lemma orders_numbered_invariant_scenario :
  orders_numbered
    (orders
       (create_order price_as_listed index_error "o10" "t10" "u1" "instagram-followers" 2
          shop_at_7
          (create_order price_as_listed index_error "o9" "t9" "u1" "instagram-followers" 2
             shop (manual_world 50)).2).2).
Proof.
  apply (orders_numbered_invariant (manual_world 50)).
  - intros id1 id2 o1 o2 n H1 H2 _ _. simpl in H1, H2.
    apply lookup_singleton_Some in H1 as [<- _].
    apply lookup_singleton_Some in H2 as [<- _]. reflexivity.
  - apply (rtc_l _ _ (create_order price_as_listed index_error "o9" "t9" "u1"
                        "instagram-followers" 2 shop (manual_world 50)).2);
      [apply step_create_order|].
    apply rtc_once, step_create_order.
Defined.

(** X18 on a scenario: beside the deposit number 3 a deposit is created and
    then confirmed. *)
Lemma deposits_numbered_invariant_scenario :
  deposits_numbered
    (transactions
       (confirm_deposit mail_delivers "d2"
          (create_deposit telegram_sent "d2" "u1" 25 "whish-801" (deposit_world 0)).2).2).
Proof.
  apply (deposits_numbered_invariant (deposit_world 0)).
  - split.
    + intros id t Hlookup _. simpl in Hlookup.
      apply lookup_singleton_Some in Hlookup as [_ <-]. exists 3. split; [reflexivity|lia].
    + intros id1 id2 t1 t2 H1 H2 _ _ _. simpl in H1, H2.
      apply lookup_singleton_Some in H1 as [<- _].
      apply lookup_singleton_Some in H2 as [<- _]. reflexivity.
  - apply (rtc_l _ _ (create_deposit telegram_sent "d2" "u1" 25 "whish-801"
                        (deposit_world 0)).2);
      [apply step_create_deposit; exists (alice 0); vm_compute; reflexivity|].
    apply rtc_once, step_update, step_confirm_deposit.
Defined.


(** X20 on a scenario: with [instagram-followers] and
    [instagram-followers-1] in use, three turns find a free slug. *)
Lemma unique_slug_fresh_scenario :
  ∃ slug, unique_slug 3 slugs_in_use "instagram-followers" = Some slug ∧
          (slug ∉ slugs_in_use) ∧
          (slug = "instagram-followers" ∨
           "instagram-followers" ∈ slugs_in_use ∧
           ∃ i, 1 ≤ i ∧ slug = slug_candidate "instagram-followers" i ∧
                ∀ j, 1 ≤ j < i → slug_candidate "instagram-followers" j ∈ slugs_in_use).
Proof.
  apply (unique_slug_fresh 3 slugs_in_use "instagram-followers").
  vm_compute. lia.
Defined.
